(** * Delayed computation of algebraic expressions (expression.py)

    A shallow embedding of the expression engine of [expression.py]: the
    node classes, [eval], [__mod__], [__str__] and [simplify], followed by
    the properties of the specification that concern them.

    Python integers are unbounded, so they are [Z].  The only way the
    engine leaves the integers is [int ** negative int], which CPython
    evaluates in floating point; the model records that as the outcome
    [Float] and does not follow floating-point arithmetic any further.
    The limits of the interpreter ([RecursionError], [MemoryError]) are not
    modelled: a call that needs more stack than a budget allows is
    [OutOfFuel]. *)

From Stdlib Require Import ZArith List String Bool Lia.
From Stdlib Require Import Zcong Zpow_facts QArith Qround.
From Stdlib Require Import DecimalString.
Import ListNotations.

Local Open Scope Z_scope.

(** ** Outcomes of a Python computation *)

(** The exceptions the engine can raise.  [TypeError] is what
    [functools.reduce] raises on an empty iterable without initial value,
    [ValueError] what three-argument [pow] raises, [ZeroDivisionError] and
    [OverflowError] what integer division and the conversion to float
    raise. *)
Inductive exn : Type :=
| ZeroDivisionError
| TypeError
| ValueError
| OverflowError.

(** [Ok a]: the call returned [a].  [Raise e]: it raised [e].  [Float]: it
    produced a Python float; what happens afterwards is floating-point
    arithmetic and is not modelled.  [OutOfFuel]: the recursion budget of
    the model was too small (only [simplify] uses fuel). *)
Inductive outcome (A : Type) : Type :=
| Ok (a : A)
| Raise (e : exn)
| Float
| OutOfFuel.

Arguments Ok {A} a.
Arguments Raise {A} e.
Arguments Float {A}.
Arguments OutOfFuel {A}.

Definition bind {A B : Type} (m : outcome A) (f : A -> outcome B) : outcome B :=
  match m with
  | Ok a => f a
  | Raise e => Raise e
  | Float => Float
  | OutOfFuel => OutOfFuel
  end.

Declare Scope outcome_scope.
Delimit Scope outcome_scope with outcome.
Notation "x <- m ;; k" := (bind m (fun x => k))
  (at level 61, m at next level, right associativity) : outcome_scope.
Local Open Scope outcome_scope.

(** Running a computation over a list, left to right; the first failure
    wins.  This is how a generator expression behaves when it is drained. *)
Fixpoint mapM {A B : Type} (f : A -> outcome B) (xs : list A) : outcome (list B) :=
  match xs with
  | [] => Ok []
  | x :: rest =>
      y <- f x ;;
      ys <- mapM f rest ;;
      Ok (y :: ys)
  end.

(** ** Python built-ins on integers *)

(** [a // b]: floor division, [ZeroDivisionError] on a zero divisor. *)
Definition py_floordiv (a b : Z) : outcome Z :=
  if b =? 0 then Raise ZeroDivisionError else Ok (a / b).

(** [a % n]: the remainder has the sign of [n]. *)
Definition py_mod (a n : Z) : outcome Z :=
  if n =? 0 then Raise ZeroDivisionError else Ok (a mod n).

(** An integer converts to a C double unless it rounds to [2^1024]. *)
Definition fits_double (x : Z) : bool :=
  Z.abs x <? 2 ^ 1024 - 2 ^ 970.

(** [a ** b] on integers.  A negative exponent makes CPython compute
    [float(a) ** float(b)]: both conversions come first, then a zero base
    is rejected, otherwise the result is a float. *)
Definition py_pow (a b : Z) : outcome Z :=
  if 0 <=? b then Ok (a ^ b)
  else if negb (fits_double a && fits_double b) then Raise OverflowError
  else if a =? 0 then Raise ZeroDivisionError
  else Float.

(** [pow(a, e, n)] on integers: the result has the sign of [n]; a negative
    exponent goes through the modular inverse of [a]. *)
Definition py_pow3 (a e n : Z) : outcome Z :=
  if n =? 0 then Raise ValueError
  else if Z.abs n =? 1 then Ok 0
  else if e <? 0 then
    if Z.gcd a n =? 1 then Ok ((Z.invmod a (Z.abs n) ^ (- e)) mod n)
    else Raise ValueError
  else Ok ((a ^ e) mod n).

(** [str(n)] for an integer. *)
Definition py_str (n : Z) : string := NilZero.string_of_int (Z.to_int n).

(** [sep.join(parts)]. *)
Fixpoint join (sep : string) (parts : list string) : string :=
  match parts with
  | [] => EmptyString
  | [p] => p
  | p :: rest => p ++ sep ++ join sep rest
  end.

(** [functools.reduce(f, xs)] without initial value. *)
Definition reduce {A : Type} (f : A -> A -> A) (xs : list A) : outcome A :=
  match xs with
  | [] => Raise TypeError
  | x :: rest => Ok (fold_left f rest x)
  end.

(** ** Node model *)

(** One constructor per concrete class; [_wrap] has already turned plain
    integers into [Literal]s. *)
Inductive Expression : Type :=
| Literal (value : Z)
| Negation (value : Expression)
| Absolute (value : Expression)
| Sum (left right : Expression)
| Product (left right : Expression)
| Power (left right : Expression)
| FloorDivision (left right : Expression).

Definition ZERO : Expression := Literal 0.
Definition ONE : Expression := Literal 1.

Definition is_literal (expression : Expression) : bool :=
  match expression with
  | Literal _ => true
  | _ => false
  end.

(** [x == Literal(v)]: [Literal.__eq__] compares values; against any other
    node both sides answer [NotImplemented] and Python falls back to
    identity, which is false for a distinct object. *)
Definition eq_literal (x : Expression) (v : Z) : bool :=
  match x with
  | Literal w => w =? v
  | _ => false
  end.

(** The four binary classes, as [type(self)] in [unwrap_parens]. *)
Inductive binary_type : Type := SumT | ProductT | PowerT | FloorDivisionT.

(** [Binary.unwrap_parens], applied to a child: a child of the same class
    is unwrapped in turn, any other child is a one-element list. *)
Fixpoint unwrap_child (unwrap_type : binary_type) (e : Expression) : list Expression :=
  match e, unwrap_type with
  | Sum l r, SumT => unwrap_child unwrap_type l ++ unwrap_child unwrap_type r
  | Product l r, ProductT => unwrap_child unwrap_type l ++ unwrap_child unwrap_type r
  | Power l r, PowerT => unwrap_child unwrap_type l ++ unwrap_child unwrap_type r
  | FloorDivision l r, FloorDivisionT =>
      unwrap_child unwrap_type l ++ unwrap_child unwrap_type r
  | _, _ => [e]
  end.

(** [self.unwrap_parens()] for a binary node [self]; the method does not
    exist on the other classes. *)
Definition unwrap_parens (self : Expression) : list Expression :=
  match self with
  | Sum _ _ => unwrap_child SumT self
  | Product _ _ => unwrap_child ProductT self
  | Power _ _ => unwrap_child PowerT self
  | FloorDivision _ _ => unwrap_child FloorDivisionT self
  | _ => []
  end.

(** ** [split] and the iterables it is given *)

(** [split] builds [filter(filter_fn, it)] and [filterfalse(filter_fn, it)]
    over the same argument.  A list hands each of them an iterator of its
    own; a generator is its own iterator, so both read one shared cursor. *)
Inductive iterable (A : Type) : Type :=
| FromList (items : list A)
| FromGenerator (pending : list A).

Arguments FromList {A} items.
Arguments FromGenerator {A} pending.

(** Both callers drain the first view completely before they touch the
    second.  The result is what each view yields in that order: over a
    generator the second view finds the cursor at the end. *)
Definition split {A : Type} (filter_fn : A -> bool) (expressions : iterable A)
  : list A * list A :=
  match expressions with
  | FromList items =>
      (filter filter_fn items, filter (fun x => negb (filter_fn x)) items)
  | FromGenerator pending =>
      let first := filter filter_fn pending in
      let cursor : list A := [] in
      (first, filter (fun x => negb (filter_fn x)) cursor)
  end.

Definition extract_literals (expressions : iterable Expression)
  : list Expression * list Expression :=
  split is_literal expressions.

(** ** Evaluator *)

Fixpoint eval (e : Expression) : outcome Z :=
  match e with
  | Literal value => Ok value
  | Negation value => v <- eval value ;; Ok (- v)
  | Absolute value => v <- eval value ;; Ok (Z.abs v)
  | Sum l r => a <- eval l ;; b <- eval r ;; Ok (a + b)
  | Product l r => a <- eval l ;; b <- eval r ;; Ok (a * b)
  | Power l r => a <- eval l ;; b <- eval r ;; py_pow a b
  | FloorDivision l r => a <- eval l ;; b <- eval r ;; py_floordiv a b
  end.

(** ** Modular evaluator, [__mod__] *)

Fixpoint mod_ (e : Expression) (n : Z) : outcome Z :=
  match e with
  | Literal value => py_mod value n
  | Negation value => v <- mod_ value n ;; Ok (- v)
  | Absolute value => v <- eval value ;; r <- py_mod v n ;; Ok (Z.abs r)
  | Sum l r => a <- mod_ l n ;; b <- mod_ r n ;; py_mod (a + b) n
  | Product l r => a <- mod_ l n ;; b <- mod_ r n ;; py_mod (a * b) n
  | Power l r => a <- mod_ l n ;; b <- eval r ;; py_pow3 a b n
  | FloorDivision l r => v <- eval e ;; py_mod v n
  end.

(** ** Formatter, [__str__] *)

Fixpoint str (e : Expression) : string :=
  match e with
  | Literal value => py_str value
  | Negation value => "-" ++ str value
  | Absolute value => "|" ++ str value ++ "|"
  | Sum l r =>
      let summands :=
        (fix go (x : Expression) : list string :=
           match x with
           | Sum a b => go a ++ go b
           | _ => [str x]
           end) in
      "(" ++ join " + " (summands l ++ summands r) ++ ")"
  | Product l r =>
      let factors :=
        (fix go (x : Expression) : list string :=
           match x with
           | Product a b => go a ++ go b
           | _ => [str x]
           end) in
      "(" ++ join "*" (factors l ++ factors r) ++ ")"
  | Power l r => str l ++ "^" ++ str r
  | FloorDivision l r => "(" ++ str l ++ "/" ++ str r ++ ")"
  end.

(** ** Simplifier *)

(** The cancellation loop of [FloorDivision.simplify], on the values of the
    literal factors.

    The inner loop runs over the denominator literals for one numerator
    literal.  [num] is read once before the loop and never updated, so each
    round stores [num // gcd(num, den)] over the previous one; [stored] is
    what [num_literals[i]] holds so far. *)
Fixpoint cancel_inner (num : Z) (stored : Z) (den_literals : list Z)
  : outcome (Z * list Z) :=
  match den_literals with
  | [] => Ok (stored, [])
  | den :: rest =>
      let d := Z.gcd num den in
      num' <- py_floordiv num d ;;
      den' <- py_floordiv den d ;;
      r <- cancel_inner num num' rest ;;
      Ok (fst r, den' :: snd r)
  end.

(** The outer loop, over the numerator literals; the denominator literals
    are updated in place from one round to the next. *)
Fixpoint cancel_outer (num_literals den_literals : list Z)
  : outcome (list Z * list Z) :=
  match num_literals with
  | [] => Ok ([], den_literals)
  | num :: rest =>
      r <- cancel_inner num num den_literals ;;
      r' <- cancel_outer rest (snd r) ;;
      Ok (fst r :: fst r', snd r')
  end.

(** [x.eval()] for an element of a list of literals. *)
Definition literal_value (x : Expression) : Z :=
  match x with
  | Literal value => value
  | _ => 0
  end.

(** [sum(x.eval() for x in literals)]. *)
Definition sum_literals (literals : list Expression) : Z :=
  fold_left Z.add (map literal_value literals) 0.

(** The [simplify] methods, one per class.  Inside a method,
    [x.simplify()] dispatches on the class of [x]; the section variable
    [simplify] stands for that call. *)
Section Methods.

Variable simplify : Expression -> outcome Expression.

Definition Negation_simplify (self_value : Expression) : outcome Expression :=
  value <- simplify self_value ;;
  match value with
  | Negation inner => Ok inner
  | Literal v => Ok (Literal (- v))
  | _ => Ok (Negation value)
  end.

Definition Absolute_simplify (self_value : Expression) : outcome Expression :=
  value <- simplify self_value ;;
  match value with
  | Absolute _ => Ok value
  | Literal v => Ok (Literal (Z.abs v))
  | Negation inner => Ok inner
  | FloorDivision l r => simplify (FloorDivision (Absolute l) (Absolute r))
  | Product l r => simplify (Product (Absolute l) (Absolute r))
  | _ => Ok (Absolute self_value)
  end.

(** [summands] is a generator: it simplifies an operand when the operand
    is asked for, and [sum] asks for all of them through [literals]. *)
Definition Sum_simplify (self : Expression) : outcome Expression :=
  summands <- mapM simplify (unwrap_parens self) ;;
  let (literals, nonliterals) := extract_literals (FromGenerator summands) in
  let literal := Literal (sum_literals literals) in
  let final_summands :=
    if eq_literal literal 0 then nonliterals
    else nonliterals ++ [literal] in
  reduce Sum final_summands.

Definition Product_simplify (self_left self_right : Expression)
  : outcome Expression :=
  left <- simplify self_left ;;
  right <- simplify self_right ;;
  if eq_literal left 1 then Ok right
  else if eq_literal right 1 then Ok left
  else if eq_literal left 0 || eq_literal right 0 then Ok ZERO
  else
    match left, right with
    | FloorDivision ll lr, FloorDivision rl rr =>
        simplify (FloorDivision (Product ll rl) (Product lr rr))
    | FloorDivision ll lr, _ =>
        simplify (FloorDivision (Product ll right) lr)
    | _, FloorDivision rl rr =>
        simplify (FloorDivision (Product left rl) rr)
    | _, _ => Ok (Product left right)
    end.

Definition Power_simplify (self_left self_right : Expression)
  : outcome Expression :=
  base <- simplify self_left ;;
  exp <- simplify self_right ;;
  if eq_literal base 1 then Ok base
  else if eq_literal base (-1) then
    parity <- mod_ exp 2 ;;
    if negb (parity =? 0) then Ok ONE else Ok base
  else if eq_literal exp 1 then Ok base
  else if eq_literal exp 0 then Ok ONE
  else Ok (Power base exp).

(** The factor lists of the cancellation step. *)
Definition numerator_factors (numerator : Expression) : list Expression :=
  match numerator with
  | Product _ _ => unwrap_parens numerator
  | Literal _ => [numerator]
  | _ => []
  end.

Definition denominator_factors (denominator : Expression) : list Expression :=
  match denominator with
  | Product _ _ => unwrap_parens denominator
  | _ => [denominator]
  end.

(** "Look for cancellations", the last part of [FloorDivision.simplify]. *)
Definition cancellations (numerator denominator : Expression)
  : outcome Expression :=
  let numerators := numerator_factors numerator in
  let denominators := denominator_factors denominator in
  match numerators, denominators with
  | _ :: _, _ :: _ =>
      let (num_literals, num_others) := extract_literals (FromList numerators) in
      let (den_literals, den_others) := extract_literals (FromList denominators) in
      lits <- cancel_outer (map literal_value num_literals)
                           (map literal_value den_literals) ;;
      top <- reduce Product (map Literal (fst lits) ++ num_others) ;;
      numerator' <- simplify top ;;
      bottom <- reduce Product (map Literal (snd lits) ++ den_others) ;;
      denominator' <- simplify bottom ;;
      if eq_literal denominator' 1 then Ok numerator'
      else Ok (FloorDivision numerator' denominator')
  | _, _ => Ok (FloorDivision numerator denominator)
  end.

Definition FloorDivision_simplify (self_left self_right : Expression)
  : outcome Expression :=
  numerator <- simplify self_left ;;
  denominator <- simplify self_right ;;
  if eq_literal denominator 1 then Ok numerator
  else if eq_literal numerator 0 then Ok ZERO
  else
    match denominator, numerator with
    | FloorDivision dl dr, _ =>
        simplify (Product numerator (FloorDivision dr dl))
    | _, FloorDivision nl nr =>
        simplify (FloorDivision nl (Product nr denominator))
    | _, _ => cancellations numerator denominator
    end.

(** Method resolution: [Literal] inherits [Expression.simplify], which
    returns [self]. *)
Definition simplify_method (self : Expression) : outcome Expression :=
  match self with
  | Literal _ => Ok self
  | Negation value => Negation_simplify value
  | Absolute value => Absolute_simplify value
  | Sum _ _ => Sum_simplify self
  | Product l r => Product_simplify l r
  | Power l r => Power_simplify l r
  | FloorDivision l r => FloorDivision_simplify l r
  end.

End Methods.

(** [simplify] with a budget for the depth of the call stack.  Besides its
    children a node may simplify a tree it has just built, so the recursion
    is not structural. *)
Fixpoint simplify (fuel : nat) (e : Expression) : outcome Expression :=
  match fuel with
  | O => OutOfFuel
  | S fuel => simplify_method (simplify fuel) e
  end.

(** The expression of the [__main__] block:
    [abs(Literal(-2) // -3) // (Literal(2) // 3)]. *)
Definition main_exp : Expression :=
  FloorDivision (Absolute (FloorDivision (Literal (-2)) (Literal (-3))))
                (FloorDivision (Literal 2) (Literal 3)).

(** ** Construction and conversion *)

(** What the arithmetic operators accept on the other side: an expression
    or a plain integer.  Any other type makes [_wrap] raise [TypeError]
    (or the operator return [NotImplemented]); the type leaves it out. *)
Inductive operand : Type :=
| OfExpression (e : Expression)
| OfInt (n : Z).

(** [_wrap]. *)
Definition wrap (value : operand) : Expression :=
  match value with
  | OfExpression e => e
  | OfInt n => Literal n
  end.

(** [__add__], [__radd__], [__sub__], [__rsub__], [__mul__], [__rmul__],
    [__floordiv__], [__rfloordiv__], [__pow__], [__rpow__], [__neg__] and
    [__abs__].  The constructors of [Unary] and [Binary] wrap their
    arguments. *)
Definition add (self : Expression) (other : operand) : Expression :=
  Sum self (wrap other).

Definition radd (self : Expression) (other : operand) : Expression :=
  Sum (wrap other) self.

Definition sub (self : Expression) (other : operand) : Expression :=
  Sum self (Negation (wrap other)).

Definition rsub (self : Expression) (other : operand) : Expression :=
  Sum (wrap other) (Negation self).

Definition mul (self : Expression) (other : operand) : Expression :=
  Product self (wrap other).

Definition rmul (self : Expression) (other : operand) : Expression :=
  Product (wrap other) self.

Definition floordiv (self : Expression) (other : operand) : Expression :=
  FloorDivision self (wrap other).

Definition rfloordiv (self : Expression) (other : operand) : Expression :=
  FloorDivision (wrap other) self.

Definition pow (self : Expression) (other : operand) : Expression :=
  Power self (wrap other).

Definition rpow (self : Expression) (other : operand) : Expression :=
  Power (wrap other) self.

Definition neg (self : Expression) : Expression := Negation self.

Definition abs (self : Expression) : Expression := Absolute self.

(** [__int__]: [self.simplify().eval()]. *)
Definition int (fuel : nat) (self : Expression) : outcome Z :=
  r <- simplify fuel self ;; eval r.

(** The loop of [b]: [divisor] doubles as long as [n % divisor] is zero.
    The budget counts the rounds of the [while]. *)
Fixpoint b_loop (fuel : nat) (n : Expression) (divisor : Z) : outcome Z :=
  match fuel with
  | O => OutOfFuel
  | S fuel =>
      r <- mod_ n divisor ;;
      if r =? 0 then b_loop fuel n (divisor * 2) else Ok divisor
  end.

Definition b (fuel : nat) (n : Expression) : outcome Z := b_loop fuel n 1.

(** ** Definitions used by the statements *)

(** The Sum rule as the specification words it: the flattened, simplified
    summands are partitioned into literals and non-literals, the literals
    are folded by addition, a zero literal is dropped, and the non-literals
    come first, the folded literal last, composed by a left fold. *)
Definition Sum_simplify_spec (simplify : Expression -> outcome Expression)
  (self : Expression) : outcome Expression :=
  summands <- mapM simplify (unwrap_parens self) ;;
  let literals := filter is_literal summands in
  let nonliterals := filter (fun x => negb (is_literal x)) summands in
  let literal := Literal (sum_literals literals) in
  let final_summands :=
    if eq_literal literal 0 then nonliterals
    else nonliterals ++ [literal] in
  reduce Sum final_summands.

(** The cancellation loop as the specification words it: for every pair of
    a numerator literal and a denominator literal, in list order, both are
    divided by their greatest common divisor, so the numerator literal is
    carried, already divided, into the next pair. *)
Fixpoint cancel_inner_spec (num : Z) (den_literals : list Z)
  : outcome (Z * list Z) :=
  match den_literals with
  | [] => Ok (num, [])
  | den :: rest =>
      let d := Z.gcd num den in
      num' <- py_floordiv num d ;;
      den' <- py_floordiv den d ;;
      r <- cancel_inner_spec num' rest ;;
      Ok (fst r, den' :: snd r)
  end.

Fixpoint cancel_outer_spec (num_literals den_literals : list Z)
  : outcome (list Z * list Z) :=
  match num_literals with
  | [] => Ok ([], den_literals)
  | num :: rest =>
      r <- cancel_inner_spec num den_literals ;;
      r' <- cancel_outer_spec rest (snd r) ;;
      Ok (fst r :: fst r', snd r')
  end.

(** Trees without a [FloorDivision] node. *)
Fixpoint division_free (e : Expression) : bool :=
  match e with
  | Literal _ => true
  | Negation x | Absolute x => division_free x
  | Sum l r | Product l r | Power l r => division_free l && division_free r
  | FloorDivision _ _ => false
  end.

(** Trees without a [Negation] node. *)
Fixpoint negation_free (e : Expression) : bool :=
  match e with
  | Literal _ => true
  | Negation _ => false
  | Absolute x => negation_free x
  | Sum l r | Product l r | Power l r | FloorDivision l r =>
      negation_free l && negation_free r
  end.

(** Trees built from [Literal], [Negation], [Absolute], [Product] and
    [Power] only, in which no [Negation] stands below an [Absolute] and no
    [Power] has a base of value [-1]. *)
Fixpoint plain (e : Expression) : Prop :=
  match e with
  | Literal _ => True
  | Negation x => plain x
  | Absolute x => plain x /\ negation_free x = true
  | Product l r => plain l /\ plain r
  | Power l r => plain l /\ plain r /\ eval l <> Ok (-1)
  | _ => False
  end.

(** Trees built from [Literal], [Sum], [Product], [Power] and [Negation]
    only, the trees of the modular-consistency property. *)
Fixpoint modular (e : Expression) : Prop :=
  match e with
  | Literal _ => True
  | Negation x => modular x
  | Sum l r | Product l r | Power l r => modular l /\ modular r
  | _ => False
  end.

Definition is_negation (e : Expression) : bool :=
  match e with
  | Negation _ => true
  | _ => false
  end.

(** Depth of a tree, the number of nodes on its longest branch. *)
Fixpoint depth (e : Expression) : nat :=
  match e with
  | Literal _ => 1
  | Negation x | Absolute x => S (depth x)
  | Sum l r | Product l r | Power l r | FloorDivision l r =>
      S (Nat.max (depth l) (depth r))
  end.

(** [r1] is [r2] unless the budget ran out: more fuel can only turn
    [OutOfFuel] into a result. *)
Definition refines {A : Type} (r1 r2 : outcome A) : Prop :=
  r1 = OutOfFuel \/ r1 = r2.

(** What the simplifier leaves behind on division-free input: a
    division-free tree that simplifies to itself; under a [Negation] root, a
    child of the same kind that is neither a [Literal] nor a [Negation];
    under a [Product] root, two operands of the same kind. *)
Inductive settled : Expression -> Prop :=
| settled_intro (r : Expression) :
    division_free r = true ->
    (exists fuel, simplify fuel r = Ok r) ->
    (forall v, r = Negation v -> settled v) ->
    (forall v, r = Negation v ->
               is_literal v = false /\ is_negation v = false) ->
    (forall a b, r = Product a b -> settled a) ->
    (forall a b, r = Product a b -> settled b) ->
    settled r.

Definition is_product (e : Expression) : bool :=
  match e with
  | Product _ _ => true
  | _ => false
  end.

(** Sum and product of a list of integers. *)
Definition total (vs : list Z) : Z := fold_left Z.add vs 0.

Definition product (vs : list Z) : Z := fold_left Z.mul vs 1.


Definition is_division (e : Expression) : bool :=
  match e with
  | FloorDivision _ _ => true
  | _ => false
  end.

(** A [Negation] at the root sits on a tree that is neither a [Literal] nor
    a [Negation], and so on below it. *)
Fixpoint negation_reduced (e : Expression) : bool :=
  match e with
  | Negation v => negb (is_literal v) && negb (is_negation v) && negation_reduced v
  | _ => true
  end.

(** * Properties *)

(** ** The outcome monad *)

Lemma refines_refl {A : Type} (r : outcome A) : refines r r.
Proof. now right. Qed.

Lemma refines_bind {A B : Type} (m1 m2 : outcome A) (f1 f2 : A -> outcome B) :
  refines m1 m2 ->
  (forall a, refines (f1 a) (f2 a)) ->
  refines (bind m1 f1) (bind m2 f2).
Proof.
  intros [-> | ->] Hf.
  - now left.
  - destruct m2; simpl; auto using refines_refl.
Qed.

Lemma refines_Ok {A : Type} (r : outcome A) (a : A) :
  refines (Ok a) r -> r = Ok a.
Proof. intros [H | H]; [discriminate | now symmetry]. Qed.

Lemma mapM_refines {A B : Type} (f1 f2 : A -> outcome B) (xs : list A) :
  (forall x, refines (f1 x) (f2 x)) ->
  refines (mapM f1 xs) (mapM f2 xs).
Proof.
  intros Hf. induction xs as [| x rest IH]; simpl.
  - apply refines_refl.
  - apply refines_bind; [apply Hf |]. intros y.
    apply refines_bind; [exact IH |]. intros ys. apply refines_refl.
Qed.

(** ** Formatting *)

Lemma summands_unwrap (x : Expression) :
  (fix go (x : Expression) : list string :=
     match x with
     | Sum a b => go a ++ go b
     | _ => [str x]
     end) x
  = map str (unwrap_child SumT x).
Proof.
  induction x; try reflexivity.
  cbn [unwrap_child]. rewrite map_app, <- IHx1, <- IHx2. reflexivity.
Qed.

Lemma factors_unwrap (x : Expression) :
  (fix go (x : Expression) : list string :=
     match x with
     | Product a b => go a ++ go b
     | _ => [str x]
     end) x
  = map str (unwrap_child ProductT x).
Proof.
  induction x; try reflexivity.
  cbn [unwrap_child]. rewrite map_app, <- IHx1, <- IHx2. reflexivity.
Qed.

(** [Sum.__str__] joins the strings of [self.unwrap_parens()]. *)
Lemma str_Sum (l r : Expression) :
  str (Sum l r)
  = ("(" ++ join " + " (map str (unwrap_parens (Sum l r))) ++ ")")%string.
Proof.
  cbn [unwrap_parens unwrap_child]. rewrite map_app.
  rewrite <- !summands_unwrap. reflexivity.
Qed.

(** [Product.__str__] joins the strings of [self.unwrap_parens()]. *)
Lemma str_Product (l r : Expression) :
  str (Product l r)
  = ("(" ++ join "*" (map str (unwrap_parens (Product l r))) ++ ")")%string.
Proof.
  cbn [unwrap_parens unwrap_child]. rewrite map_app.
  rewrite <- !factors_unwrap. reflexivity.
Qed.

(** A nested sum prints as one flat group. *)
Example str_flat_sum :
  str (Sum (Sum (Literal 1) (Literal 2)) (Literal 3)) = "(1 + 2 + 3)"%string.
Proof. reflexivity. Qed.

(** ** A larger budget never changes a result *)

Section Monotone.

Variables s1 s2 : Expression -> outcome Expression.
Hypothesis s1_s2 : forall x, refines (s1 x) (s2 x).

Local Ltac step :=
  first
    [ apply refines_refl
    | apply s1_s2
    | apply refines_bind; [| intro]
    | apply mapM_refines; intro ].

Lemma Negation_simplify_refines x :
  refines (Negation_simplify s1 x) (Negation_simplify s2 x).
Proof. unfold Negation_simplify. repeat step. Qed.

Lemma Absolute_simplify_refines x :
  refines (Absolute_simplify s1 x) (Absolute_simplify s2 x).
Proof.
  unfold Absolute_simplify. step; [step |].
  destruct a; repeat step.
Qed.

Lemma Sum_simplify_refines e :
  refines (Sum_simplify s1 e) (Sum_simplify s2 e).
Proof. unfold Sum_simplify. repeat step. Qed.

Lemma Product_simplify_refines l r :
  refines (Product_simplify s1 l r) (Product_simplify s2 l r).
Proof.
  unfold Product_simplify. do 2 (step; [step |]).
  destruct (eq_literal a 1); [step |].
  destruct (eq_literal a0 1); [step |].
  destruct (eq_literal a 0 || eq_literal a0 0); [step |].
  destruct a, a0; repeat step.
Qed.

Lemma Power_simplify_refines l r :
  refines (Power_simplify s1 l r) (Power_simplify s2 l r).
Proof. unfold Power_simplify. repeat step. Qed.

Lemma cancellations_refines n d :
  refines (cancellations s1 n d) (cancellations s2 n d).
Proof.
  unfold cancellations.
  destruct (numerator_factors n); [step |].
  destruct (denominator_factors d); [step |].
  destruct (extract_literals _) as [nl no].
  destruct (extract_literals _) as [dl do].
  repeat step.
Qed.

Lemma FloorDivision_simplify_refines l r :
  refines (FloorDivision_simplify s1 l r) (FloorDivision_simplify s2 l r).
Proof.
  unfold FloorDivision_simplify. do 2 (step; [step |]).
  destruct (eq_literal a0 1); [step |].
  destruct (eq_literal a 0); [step |].
  destruct a0, a; first [apply cancellations_refines | step].
Qed.

Lemma simplify_method_refines e :
  refines (simplify_method s1 e) (simplify_method s2 e).
Proof.
  destruct e; simpl;
    auto using refines_refl, Negation_simplify_refines,
      Absolute_simplify_refines, Sum_simplify_refines,
      Product_simplify_refines, Power_simplify_refines,
      FloorDivision_simplify_refines.
Qed.

End Monotone.

Lemma simplify_S (fuel : nat) (e : Expression) :
  refines (simplify fuel e) (simplify (S fuel) e).
Proof.
  revert e. induction fuel as [| fuel IH]; intros e.
  - now left.
  - change (refines (simplify_method (simplify fuel) e)
                    (simplify_method (simplify (S fuel)) e)).
    apply simplify_method_refines, IH.
Qed.

Lemma simplify_more_fuel (fuel fuel' : nat) (e r : Expression) :
  simplify fuel e = Ok r -> (fuel <= fuel')%nat -> simplify fuel' e = Ok r.
Proof.
  intros H Hle. induction Hle as [| k _ IH]; [exact H |].
  apply refines_Ok. rewrite <- IH. apply simplify_S.
Qed.

Lemma simplify_raise_more_fuel (fuel fuel' : nat) (e : Expression) (x : exn) :
  simplify fuel e = Raise x -> (fuel <= fuel')%nat -> simplify fuel' e = Raise x.
Proof.
  intros H Hle. induction Hle as [| k _ IH]; [exact H |].
  destruct (simplify_S k e) as [H' | H']; congruence.
Qed.

(** The result of [simplify] does not depend on the budget. *)
Lemma simplify_deterministic (n m : nat) (e r r' : Expression) :
  simplify n e = Ok r -> simplify m e = Ok r' -> r = r'.
Proof.
  intros H H'.
  apply simplify_more_fuel with (fuel' := Nat.max n m) in H; [| lia].
  apply simplify_more_fuel with (fuel' := Nat.max n m) in H'; [| lia].
  congruence.
Qed.

(** ** Evaluation *)

Lemma Qfloor_quotient (a b : Z) :
  b <> 0 -> Qfloor (inject_Z a / inject_Z b)%Q = a / b.
Proof.
  intros Hb. destruct b as [| p | p]; [contradiction | |];
    unfold Qdiv, Qmult, Qinv, inject_Z, Qfloor; simpl.
  - now rewrite Z.mul_1_r.
  - rewrite <- (Z.div_opp_opp a (Z.neg p)) by discriminate.
    simpl. f_equal. lia.
Qed.

(** C6.  On two literals [FloorDivision.eval] returns the floor of the exact
    quotient [a / b], rounding toward negative infinity, whenever [b] is not
    zero. *)
Theorem FloorDivision_eval_floor (a b : Z) :
  b <> 0 ->
  eval (FloorDivision (Literal a) (Literal b))
  = Ok (Qfloor (inject_Z a / inject_Z b)%Q).
Proof.
  intros Hb. rewrite Qfloor_quotient by exact Hb.
  simpl. unfold py_floordiv.
  destruct (Z.eqb_spec b 0); [contradiction | reflexivity].
Qed.

(** [FloorDivision(Literal(-7), Literal(2)).eval()] is [-4], not [-3]. *)
Lemma FloorDivision_eval_floor_witness :
  2 <> 0 /\ eval (FloorDivision (Literal (-7)) (Literal 2)) = Ok (-4).
Proof.
  split; [discriminate |].
  exact (FloorDivision_eval_floor (-7) 2 ltac:(discriminate)).
Defined.

(** C5, as the code has it.  When the operands of a [Power] evaluate to the
    integers [a] and [b], [eval] returns [a ** b] for [b >= 0].  For [b < 0]
    there is no domain check: Python's [**] answers with a float when the
    base is not zero, with [ZeroDivisionError] when it is, and with
    [OverflowError] when an operand does not convert to a float. *)
Theorem Power_eval_exponent (l r : Expression) (a b : Z) :
  eval l = Ok a ->
  eval r = Ok b ->
  (0 <= b -> eval (Power l r) = Ok (a ^ b)) /\
  (b < 0 -> fits_double a = true -> fits_double b = true -> a <> 0 ->
   eval (Power l r) = Float) /\
  (b < 0 -> fits_double b = true -> a = 0 ->
   eval (Power l r) = Raise ZeroDivisionError) /\
  (b < 0 -> fits_double a = false \/ fits_double b = false ->
   eval (Power l r) = Raise OverflowError).
Proof.
  intros Hl Hr. simpl. rewrite Hl, Hr. simpl. unfold py_pow.
  repeat split.
  - intros Hb. destruct (Z.leb_spec 0 b); [reflexivity | lia].
  - intros Hb Ha Hfb Hnz. destruct (Z.leb_spec 0 b); [lia |].
    rewrite Ha, Hfb. simpl.
    destruct (Z.eqb_spec a 0); [contradiction | reflexivity].
  - intros Hb Hfb ->. destruct (Z.leb_spec 0 b); [lia |].
    rewrite Hfb. reflexivity.
  - intros Hb Hfit. destruct (Z.leb_spec 0 b); [lia |].
    destruct Hfit as [-> | ->]; [reflexivity |].
    now rewrite andb_false_r.
Qed.

Lemma Power_eval_exponent_witness :
  eval (Power (Literal 2) (Literal 10)) = Ok 1024.
Proof.
  exact (proj1 (Power_eval_exponent (Literal 2) (Literal 10) 2 10
                  eq_refl eq_refl) ltac:(discriminate)).
Defined.

(** C5 as stated fails: [Power(2, -1).eval()] raises nothing, it is the
    float [0.5]. *)
Lemma Power_negative_exponent_raises_nothing :
  eval (Literal (-1)) = Ok (-1) /\
  -1 < 0 /\
  eval (Power (Literal 2) (Literal (-1))) = Float /\
  ~ (exists e, eval (Power (Literal 2) (Literal (-1))) = Raise e).
Proof.
  repeat split. intros [e He]. vm_compute in He. discriminate.
Qed.

(** C8, as the code has it.  Direct [eval] of the [__main__] expression
    raises [ZeroDivisionError]: [-2 // -3] and [2 // 3] both floor to [0], so
    the outer division is [0 // 0].  [simplify] returns a tree, and that
    tree evaluates to an integer. *)
Theorem main_exp_needs_simplify :
  eval main_exp = Raise ZeroDivisionError /\
  exists (r : Expression) (v : Z),
    (forall fuel, simplify (6 + fuel) main_exp = Ok r) /\ eval r = Ok v.
Proof.
  split; [reflexivity |].
  exists (Literal 3), 3. split; [| reflexivity].
  intros fuel. apply (simplify_more_fuel 6); [reflexivity | lia].
Qed.

(** C8 as stated fails: direct [eval] of the unsimplified expression does
    not succeed. *)
Lemma main_exp_eval_fails : ~ (exists v : Z, eval main_exp = Ok v).
Proof. intros [v Hv]. vm_compute in Hv. discriminate. Qed.

(** ** What [Sum.simplify] computes *)

(** Over a generator the second view of [split] is always empty. *)
Lemma extract_literals_generator (summands : list Expression) :
  extract_literals (FromGenerator summands) = (filter is_literal summands, []).
Proof. reflexivity. Qed.

(** Over a list both views see every item. *)
Lemma extract_literals_list (items : list Expression) :
  extract_literals (FromList items)
  = (filter is_literal items, filter (fun x => negb (is_literal x)) items).
Proof. reflexivity. Qed.

(** [Sum.simplify] keeps the literal summands only: it returns their total
    as one [Literal], and raises [TypeError] when the total is zero. *)
Lemma Sum_simplify_code (s : Expression -> outcome Expression) (e : Expression) :
  Sum_simplify s e =
  (summands <- mapM s (unwrap_parens e) ;;
   let total := sum_literals (filter is_literal summands) in
   if total =? 0 then Raise TypeError else Ok (Literal total)).
Proof.
  unfold Sum_simplify. destruct (mapM s (unwrap_parens e)); simpl; trivial.
  destruct (_ =? 0); reflexivity.
Qed.

(** C10.  [Sum(Literal(1), Literal(-1)).simplify()] raises: the literals
    fold to zero, nothing is left to reduce, and [reduce] over an empty
    sequence raises [TypeError].  No budget makes it return a tree. *)
Theorem Sum_simplify_not_total :
  (forall fuel,
      simplify (S (S fuel)) (Sum (Literal 1) (Literal (-1))) = Raise TypeError) /\
  (forall fuel r, simplify fuel (Sum (Literal 1) (Literal (-1))) <> Ok r).
Proof.
  assert (H : forall fuel,
             simplify (S (S fuel)) (Sum (Literal 1) (Literal (-1)))
             = Raise TypeError).
  { intros fuel. apply (simplify_raise_more_fuel 2); [reflexivity | lia]. }
  split; [exact H |].
  intros fuel r Hr.
  apply simplify_more_fuel with (fuel' := S (S fuel)) in Hr; [| lia].
  rewrite H in Hr. discriminate.
Qed.

(** C2 fails on the code.  For [Sum(Power(2, 3), Literal(1))] the rule of
    the specification gives the same tree back, non-literal first, literal
    last; [Sum.simplify] returns [Literal(1)] and loses the power. *)
Theorem Sum_simplify_drops_nonliterals :
  forall fuel,
    let t := Sum (Power (Literal 2) (Literal 3)) (Literal 1) in
    simplify (3 + fuel) t = Ok (Literal 1) /\
    Sum_simplify_spec (simplify (2 + fuel)) t = Ok t.
Proof.
  intros fuel t. split.
  - apply (simplify_more_fuel 3); [reflexivity | lia].
  - unfold Sum_simplify_spec, t.
    change (unwrap_parens (Sum (Power (Literal 2) (Literal 3)) (Literal 1)))
      with [Power (Literal 2) (Literal 3); Literal 1].
    cbn [mapM].
    rewrite (simplify_more_fuel 2 (2 + fuel) (Power (Literal 2) (Literal 3))
               (Power (Literal 2) (Literal 3)) eq_refl) by lia.
    rewrite (simplify_more_fuel 1 (2 + fuel) (Literal 1) (Literal 1) eq_refl)
      by lia.
    reflexivity.
Qed.

(** ** Identity laws *)

(** The law for [Product] holds: [Product(x, Literal(1))] simplifies to
    what [x] simplifies to. *)
Lemma Product_identity (fuel : nat) (x r : Expression) :
  simplify fuel x = Ok r ->
  simplify (S fuel) (Product x (Literal 1)) = Ok r.
Proof.
  intros H. simpl. unfold Product_simplify. rewrite H. simpl.
  destruct fuel; [discriminate |]. simpl.
  destruct r; simpl; trivial.
  destruct (Z.eqb_spec value 1); congruence.
Qed.

(** When the base simplifies to [Literal(-1)], [Power.simplify] returns
    [ONE] for an odd exponent and the base for an even one. *)
Lemma Power_simplify_minus_one (s : Expression -> outcome Expression)
  (l r exp : Expression) (parity : Z) :
  s l = Ok (Literal (-1)) ->
  s r = Ok exp ->
  mod_ exp 2 = Ok parity ->
  Power_simplify s l r = Ok (if parity =? 0 then Literal (-1) else Literal 1).
Proof.
  intros Hl Hr Hp. unfold Power_simplify.
  rewrite Hl, Hr. simpl. rewrite Hp. simpl.
  destruct (parity =? 0); reflexivity.
Qed.

(** C4 fails on the code: the parity test is inverted.  [(-1) ** 2]
    simplifies to [Literal(-1)] and [(-1) ** 3] to [Literal(1)]. *)
Theorem Power_simplify_parity_inverted :
  forall fuel,
    simplify (2 + fuel) (Power (Literal (-1)) (Literal 2)) = Ok (Literal (-1)) /\
    eval (Power (Literal (-1)) (Literal 2)) = Ok 1 /\
    simplify (2 + fuel) (Power (Literal (-1)) (Literal 3)) = Ok (Literal 1) /\
    eval (Power (Literal (-1)) (Literal 3)) = Ok (-1).
Proof.
  intros fuel. repeat split;
    apply (simplify_more_fuel 2); solve [reflexivity | lia].
Qed.

(** C3 fails on the code.  With [x = Literal(0)], [Sum(x, Literal(0))]
    raises [TypeError] although [x] simplifies to itself; with
    [x = Literal(-1)], [Power(x, Literal(1))] simplifies to [Literal(1)] and
    [Power(x, Literal(0))] to [Literal(-1)]. *)
Theorem identity_laws_failing_inputs :
  forall fuel,
    simplify (2 + fuel) (Literal 0) = Ok (Literal 0) /\
    simplify (2 + fuel) (Sum (Literal 0) (Literal 0)) = Raise TypeError /\
    simplify (2 + fuel) (Literal (-1)) = Ok (Literal (-1)) /\
    simplify (2 + fuel) (Power (Literal (-1)) (Literal 1)) = Ok (Literal 1) /\
    simplify (2 + fuel) (Power (Literal (-1)) (Literal 0)) = Ok (Literal (-1)).
Proof.
  intros fuel. repeat split;
    first [ apply (simplify_more_fuel 2); solve [reflexivity | lia]
          | apply (simplify_raise_more_fuel 2); solve [reflexivity | lia] ].
Qed.

(** ** Modular consistency *)

Lemma py_mod_pos (a m : Z) : 1 <= m -> py_mod a m = Ok (a mod m).
Proof.
  intros Hm. unfold py_mod. destruct (Z.eqb_spec m 0); [lia | reflexivity].
Qed.

Lemma py_pow_Ok (a b v : Z) : py_pow a b = Ok v -> 0 <= b /\ v = a ^ b.
Proof.
  unfold py_pow. destruct (Z.leb_spec 0 b).
  - intros [= <-]. now split.
  - destruct (negb _); [discriminate |].
    destruct (a =? 0); discriminate.
Qed.

Lemma py_pow3_pos (a a' b m : Z) :
  1 <= m -> 0 <= b -> a' mod m = a mod m ->
  py_pow3 a' b m = Ok ((a ^ b) mod m).
Proof.
  intros Hm Hb Ha. unfold py_pow3.
  destruct (Z.eqb_spec m 0); [lia |].
  destruct (Z.eqb_spec (Z.abs m) 1) as [H1 | H1].
  - assert (m = 1) as -> by lia. now rewrite Z.mod_1_r.
  - destruct (Z.ltb_spec b 0); [lia |].
    f_equal. rewrite (Zpower_mod a' b m), (Zpower_mod a b m) by lia.
    now rewrite Ha.
Qed.

Lemma bind_Ok {A B : Type} (m : outcome A) (f : A -> outcome B) (b : B) :
  bind m f = Ok b -> exists a, m = Ok a /\ f a = Ok b.
Proof. destruct m; simpl; try discriminate. intros H. now exists a. Qed.

(** C7, as the code has it.  On a tree built from [Literal], [Sum],
    [Product], [Power] and [Negation] whose [eval] returns the integer [v],
    [__mod__] with a modulus [m >= 1] returns an integer congruent to [v]
    modulo [m]; it is the canonical residue [v % m] unless the root of the
    tree is a [Negation], whose result is not reduced. *)
Theorem mod_congruent (t : Expression) (m v : Z) :
  modular t ->
  1 <= m ->
  eval t = Ok v ->
  exists r, mod_ t m = Ok r /\
            r mod m = v mod m /\
            (is_negation t = false -> r = v mod m).
Proof.
  intros Ht Hm. revert v Ht.
  induction t as [z | x IH | x IH | l IHl r IHr | l IHl r IHr | l IHl r IHr
                 | l IHl r IHr]; intros v Ht Hv; simpl in Ht; try contradiction.
  - injection Hv as <-. exists (z mod m). simpl.
    rewrite py_mod_pos by exact Hm. repeat split. apply Zmod_mod.
  - simpl in Hv. apply bind_Ok in Hv as (a & Ha & [= <-]).
    destruct (IH a Ht Ha) as (q & Hq & Hcong & _).
    exists (- q). simpl. rewrite Hq. simpl. repeat split; [| discriminate].
    rewrite <- (Z.sub_0_l q), <- (Z.sub_0_l a).
    rewrite (Zminus_mod 0 q), (Zminus_mod 0 a). now rewrite Hcong.
  - simpl in Hv. apply bind_Ok in Hv as (a & Ha & Hv).
    apply bind_Ok in Hv as (b & Hb & [= <-]).
    destruct Ht as [Htl Htr].
    destruct (IHl a Htl Ha) as (p & Hp & Hpc & _).
    destruct (IHr b Htr Hb) as (q & Hq & Hqc & _).
    exists ((a + b) mod m). simpl. rewrite Hp, Hq. simpl.
    rewrite py_mod_pos by exact Hm.
    rewrite (Zplus_mod p q), Hpc, Hqc, <- Zplus_mod.
    repeat split. apply Zmod_mod.
  - simpl in Hv. apply bind_Ok in Hv as (a & Ha & Hv).
    apply bind_Ok in Hv as (b & Hb & [= <-]).
    destruct Ht as [Htl Htr].
    destruct (IHl a Htl Ha) as (p & Hp & Hpc & _).
    destruct (IHr b Htr Hb) as (q & Hq & Hqc & _).
    exists ((a * b) mod m). simpl. rewrite Hp, Hq. simpl.
    rewrite py_mod_pos by exact Hm.
    rewrite (Zmult_mod p q), Hpc, Hqc, <- Zmult_mod.
    repeat split. apply Zmod_mod.
  - simpl in Hv. apply bind_Ok in Hv as (a & Ha & Hv).
    apply bind_Ok in Hv as (b & Hb & Hv).
    apply py_pow_Ok in Hv as [Hb0 ->].
    destruct Ht as [Htl Htr].
    destruct (IHl a Htl Ha) as (p & Hp & Hpc & _).
    exists ((a ^ b) mod m). simpl. rewrite Hp, Hb. simpl.
    rewrite (py_pow3_pos a p b m) by assumption.
    repeat split. apply Zmod_mod.
Qed.

Lemma mod_congruent_witness :
  exists r,
    mod_ (Sum (Negation (Literal 1)) (Power (Literal 2) (Literal 3))) 5 = Ok r /\
    r mod 5 = 7 mod 5 /\
    (is_negation (Sum (Negation (Literal 1)) (Power (Literal 2) (Literal 3)))
     = false -> r = 7 mod 5).
Proof.
  apply (mod_congruent
           (Sum (Negation (Literal 1)) (Power (Literal 2) (Literal 3))) 5 7).
  - simpl. tauto.
  - lia.
  - reflexivity.
Defined.

(** C7 as stated fails at a [Negation] root: [Negation(Literal(1)) % 3] is
    [-1], while [eval() % 3] is [2]. *)
Lemma mod_Negation_not_canonical :
  modular (Negation (Literal 1)) /\
  eval (Negation (Literal 1)) = Ok (-1) /\
  mod_ (Negation (Literal 1)) 3 = Ok (-1) /\
  (-1) mod 3 = 2 /\
  mod_ (Negation (Literal 1)) 3 <> Ok ((-1) mod 3).
Proof. repeat split. discriminate. Qed.

(** ** Simplifying twice *)

Lemma settled_free (r : Expression) : settled r -> division_free r = true.
Proof. now intros []. Qed.

Lemma settled_fixed (r : Expression) :
  settled r -> exists fuel, simplify fuel r = Ok r.
Proof. now intros []. Qed.

Lemma settled_Negation (v : Expression) : settled (Negation v) -> settled v.
Proof. intros H. inversion H as [r Hfree Hfix Hneg]. now apply Hneg. Qed.

Lemma settled_Product (a b : Expression) :
  settled (Product a b) -> settled a /\ settled b.
Proof.
  intros H. inversion H as [r Hfree Hfix Hneg Hroot Hl Hr]. split.
  - now apply (Hl a b).
  - now apply (Hr a b).
Qed.

Lemma settled_Literal (z : Z) : settled (Literal z).
Proof.
  constructor; [reflexivity | now exists 1%nat | discriminate ..].
Qed.

(** A tree that is not a [Negation] is settled once it is division-free
    and a fixed point. *)
Lemma settled_root (r : Expression) (fuel : nat) :
  is_negation r = false ->
  is_product r = false ->
  division_free r = true ->
  simplify fuel r = Ok r ->
  settled r.
Proof.
  intros Hneg Hprod Hfree Hfix. constructor; trivial.
  - now exists fuel.
  - intros v ->. discriminate.
  - intros v ->. discriminate.
  - intros a b ->. discriminate.
  - intros a b ->. discriminate.
Qed.

(** Two fixed points have a common budget. *)
Lemma common_fuel (a b : Expression) :
  (exists n, simplify n a = Ok a) ->
  (exists n, simplify n b = Ok b) ->
  exists n, simplify n a = Ok a /\ simplify n b = Ok b.
Proof.
  intros [n Hn] [m Hm]. exists (Nat.max n m).
  split; eapply simplify_more_fuel; eauto; lia.
Qed.

Section Settled.

Variable fuel : nat.
Hypothesis IH : forall t r,
    division_free t = true -> simplify fuel t = Ok r -> settled r.

Lemma Negation_simplify_settled (x r : Expression) :
  division_free x = true ->
  Negation_simplify (simplify fuel) x = Ok r ->
  settled r.
Proof.
  intros Hx H. unfold Negation_simplify in H.
  apply bind_Ok in H as (value & Hvalue & H).
  pose proof (IH _ _ Hx Hvalue) as Hs.
  destruct value; injection H as <-;
    try (apply settled_Literal);
    try (now apply settled_Negation).
  all: constructor;
    [ exact (settled_free _ Hs)
    | destruct (settled_fixed _ Hs) as [n Hn]; exists (S n); simpl;
      unfold Negation_simplify; rewrite Hn; reflexivity
    | intros v [= <-]; exact Hs
    | intros v [= <-]; split; reflexivity
    | discriminate
    | discriminate ].
Qed.

Lemma Absolute_simplify_settled (x r : Expression) :
  division_free x = true ->
  Absolute_simplify (simplify fuel) x = Ok r ->
  settled r.
Proof.
  intros Hx H. pose proof H as Hself. unfold Absolute_simplify in H.
  apply bind_Ok in H as (value & Hvalue & H).
  pose proof (IH _ _ Hx Hvalue) as Hs.
  pose proof (settled_free _ Hs) as Hfree.
  destruct value; try discriminate Hfree.
  - injection H as <-. apply settled_Literal.
  - injection H as <-. now apply settled_Negation.
  - injection H as <-. exact Hs.
  - injection H as <-. now apply (settled_root _ (S fuel)).
  - refine (IH _ _ _ H). exact Hfree.
  - injection H as <-. now apply (settled_root _ (S fuel)).
Qed.

Lemma Sum_simplify_settled (e r : Expression) :
  Sum_simplify (simplify fuel) e = Ok r -> settled r.
Proof.
  rewrite Sum_simplify_code. intros H.
  apply bind_Ok in H as (summands & _ & H). cbv zeta in H.
  destruct (_ =? 0); [discriminate |]. injection H as <-.
  apply settled_Literal.
Qed.

Lemma Product_simplify_settled (l r res : Expression) :
  division_free l = true -> division_free r = true ->
  Product_simplify (simplify fuel) l r = Ok res ->
  settled res.
Proof.
  intros Hl Hr H. unfold Product_simplify in H.
  apply bind_Ok in H as (left & Hleft & H).
  apply bind_Ok in H as (right & Hright & H).
  pose proof (IH _ _ Hl Hleft) as Sl. pose proof (IH _ _ Hr Hright) as Sr.
  pose proof (settled_free _ Sl) as Fl. pose proof (settled_free _ Sr) as Fr.
  destruct (eq_literal left 1) eqn:L1; [now injection H as <- |].
  destruct (eq_literal right 1) eqn:R1; [now injection H as <- |].
  destruct (eq_literal left 0 || eq_literal right 0) eqn:Z0;
    [injection H as <-; apply settled_Literal |].
  destruct (common_fuel left right (settled_fixed _ Sl) (settled_fixed _ Sr))
    as (n & Hn1 & Hn2).
  assert (Hfix : simplify (S n) (Product left right) = Ok (Product left right)).
  { simpl. unfold Product_simplify. rewrite Hn1, Hn2. simpl.
    rewrite L1, R1, Z0.
    destruct left; try discriminate Fl;
      destruct right; try discriminate Fr; reflexivity. }
  assert (Hres : res = Product left right).
  { destruct left; try discriminate Fl;
      destruct right; try discriminate Fr; now injection H. }
  subst res. constructor; try discriminate.
  - simpl. now rewrite Fl, Fr.
  - now exists (S n).
  - now intros a b [= <- <-].
  - now intros a b [= <- <-].
Qed.

Lemma Power_simplify_settled (l r res : Expression) :
  division_free l = true -> division_free r = true ->
  Power_simplify (simplify fuel) l r = Ok res ->
  settled res.
Proof.
  intros Hl Hr H. unfold Power_simplify in H.
  apply bind_Ok in H as (base & Hbase & H).
  apply bind_Ok in H as (exp & Hexp & H).
  pose proof (IH _ _ Hl Hbase) as Sb. pose proof (IH _ _ Hr Hexp) as Se.
  pose proof (settled_free _ Sb) as Fb. pose proof (settled_free _ Se) as Fe.
  destruct (eq_literal base 1) eqn:B1; [now injection H as <- |].
  destruct (eq_literal base (-1)) eqn:Bm.
  { apply bind_Ok in H as (parity & _ & H).
    destruct (negb _); injection H as <-; trivial. apply settled_Literal. }
  destruct (eq_literal exp 1) eqn:E1; [now injection H as <- |].
  destruct (eq_literal exp 0) eqn:E0;
    [injection H as <-; apply settled_Literal |].
  injection H as <-.
  destruct (common_fuel base exp (settled_fixed _ Sb) (settled_fixed _ Se))
    as (n & Hn1 & Hn2).
  apply (settled_root _ (S n)); trivial.
  - simpl. now rewrite Fb, Fe.
  - simpl. unfold Power_simplify. rewrite Hn1, Hn2. simpl.
    now rewrite B1, Bm, E1, E0.
Qed.

End Settled.

(** Whatever [simplify] returns on a division-free tree is settled. *)
Lemma simplify_settled (fuel : nat) :
  forall t r, division_free t = true -> simplify fuel t = Ok r -> settled r.
Proof.
  induction fuel as [| fuel IH]; intros t r Ht H; [discriminate |].
  destruct t; simpl in H, Ht.
  - injection H as <-. apply settled_Literal.
  - now apply (Negation_simplify_settled fuel IH t).
  - now apply (Absolute_simplify_settled fuel IH t).
  - now apply (Sum_simplify_settled fuel _ _ H).
  - apply andb_true_iff in Ht as [Ht1 Ht2].
    now apply (Product_simplify_settled fuel IH t1 t2).
  - apply andb_true_iff in Ht as [Ht1 Ht2].
    now apply (Power_simplify_settled fuel IH t1 t2).
  - discriminate.
Qed.

(** Where the cancellation loop is not reached the simplifier is
    idempotent: on a tree without [FloorDivision] nodes, when [simplify]
    returns a tree [r], simplifying [r] again returns [r] itself, so the
    two have the same string form. *)
Theorem simplify_idempotent_without_division (fuel : nat) (t r : Expression) :
  division_free t = true ->
  simplify fuel t = Ok r ->
  (exists fuel', forall k, (fuel' <= k)%nat -> simplify k r = Ok r) /\
  (forall k r', simplify k r = Ok r' -> str r' = str r).
Proof.
  intros Ht H.
  destruct (settled_fixed r (simplify_settled fuel t r Ht H)) as [n Hn].
  split.
  - exists n. intros k Hk. now apply (simplify_more_fuel n).
  - intros k r' Hr'. now rewrite (simplify_deterministic k n r r' r).
Qed.

Lemma simplify_idempotent_without_division_witness :
  (exists fuel', forall k, (fuel' <= k)%nat ->
     simplify k (Product (Literal 2) (Absolute (Power (Literal 2) (Literal 3))))
     = Ok (Product (Literal 2) (Absolute (Power (Literal 2) (Literal 3))))) /\
  (forall k r',
     simplify k (Product (Literal 2) (Absolute (Power (Literal 2) (Literal 3))))
     = Ok r' ->
     str r' = str (Product (Literal 2) (Absolute (Power (Literal 2) (Literal 3))))).
Proof.
  apply (simplify_idempotent_without_division 6
           (Absolute (Product (Negation (Literal 2))
                              (Power (Literal 2) (Literal 3))))).
  - reflexivity.
  - reflexivity.
Defined.

(** C9 fails on the code.  [FloorDivision(2, Product(4, 3))] simplifies to
    a tree printed [(2/(2*3))], and simplifying that tree gives one printed
    [(2/3)].  The cancellation loop reads the numerator literal once and
    does not carry it from one denominator literal to the next: against
    [4] and [3] it divides the [4] by [2] and leaves the numerator [2],
    where dividing both, as the rule says, gives the numerator [1] and
    nothing for a second pass to cancel. *)
Theorem simplify_twice_differs :
  exists r r',
    (forall fuel,
        simplify (4 + fuel)
          (FloorDivision (Literal 2) (Product (Literal 4) (Literal 3)))
        = Ok r) /\
    (forall fuel, simplify (4 + fuel) r = Ok r') /\
    str r = "(2/(2*3))"%string /\
    str r' = "(2/3)"%string /\
    str r' <> str r /\
    cancel_outer [2] [4; 3] = Ok ([2], [2; 3]) /\
    cancel_outer_spec [2] [4; 3] = Ok ([1], [2; 3]) /\
    cancel_outer [1] [2; 3] = Ok ([1], [2; 3]).
Proof.
  exists (FloorDivision (Literal 2) (Product (Literal 2) (Literal 3))),
         (FloorDivision (Literal 2) (Literal 3)).
  repeat split; try discriminate;
    intros fuel; apply (simplify_more_fuel 4); solve [reflexivity | lia].
Qed.

(** ** Simplification and value *)

Lemma eq_literal_true (x : Expression) (v : Z) :
  eq_literal x v = true -> x = Literal v.
Proof.
  destruct x; simpl; try discriminate.
  intros H. apply Z.eqb_eq in H. now subst.
Qed.

Lemma simplify_Literal (fuel : nat) (z : Z) :
  simplify (S fuel) (Literal z) = Ok (Literal z).
Proof. reflexivity. Qed.

(** [Negation.simplify] on a child that simplifies to [value]. *)
Lemma Negation_simplify_value (value : Expression) (a : Z) :
  eval value = Ok a ->
  division_free value = true ->
  exists res,
    (forall s x, s x = Ok value -> Negation_simplify s x = Ok res) /\
    eval res = Ok (- a) /\
    division_free res = true.
Proof.
  intros Ha Hfree.
  destruct value;
    try (eexists; split;
         [ intros s x Hs; unfold Negation_simplify; rewrite Hs; reflexivity
         | simpl in *; rewrite ?Ha; simpl; split; [reflexivity | assumption] ]).
  - injection Ha as <-. exists (Literal (- value)). repeat split.
    intros s x Hs. unfold Negation_simplify. now rewrite Hs.
  - simpl in Ha. apply bind_Ok in Ha as (c & Hc & [= <-]).
    exists value. rewrite Hc, Z.opp_involutive. repeat split; trivial.
    intros s x Hs. unfold Negation_simplify. now rewrite Hs.
Qed.

(** [Product.simplify] on operands that simplify to division-free trees. *)
Lemma Product_simplify_value (left right : Expression) (a b : Z) :
  eval left = Ok a -> eval right = Ok b ->
  division_free left = true -> division_free right = true ->
  exists res,
    (forall s l r, s l = Ok left -> s r = Ok right ->
                   Product_simplify s l r = Ok res) /\
    eval res = Ok (a * b) /\
    division_free res = true.
Proof.
  intros Ha Hb Fl Fr.
  destruct (eq_literal left 1) eqn:L1.
  { exists right. rewrite Hb. repeat split; trivial.
    - intros s l r Hl Hr. unfold Product_simplify.
      rewrite Hl, Hr. simpl. now rewrite L1.
    - apply eq_literal_true in L1. subst left. injection Ha as <-.
      f_equal. lia. }
  destruct (eq_literal right 1) eqn:R1.
  { exists left. rewrite Ha. repeat split; trivial.
    - intros s l r Hl Hr. unfold Product_simplify.
      rewrite Hl, Hr. simpl. now rewrite L1, R1.
    - apply eq_literal_true in R1. subst right. injection Hb as <-.
      f_equal. lia. }
  destruct (eq_literal left 0 || eq_literal right 0) eqn:Z0.
  { exists ZERO. repeat split.
    - intros s l r Hl Hr. unfold Product_simplify.
      rewrite Hl, Hr. simpl. now rewrite L1, R1, Z0.
    - simpl. f_equal.
      apply orb_true_iff in Z0 as [Z0 | Z0]; apply eq_literal_true in Z0;
        subst; simpl in *.
      + injection Ha as <-. reflexivity.
      + injection Hb as <-. lia. }
  exists (Product left right). repeat split.
  - intros s l r Hl Hr. unfold Product_simplify.
    rewrite Hl, Hr. simpl. rewrite L1, R1, Z0.
    destruct left; try discriminate Fl;
      destruct right; try discriminate Fr; reflexivity.
  - simpl. now rewrite Ha, Hb.
  - simpl. now rewrite Fl, Fr.
Qed.

(** [Power.simplify] on operands whose base does not have the value [-1]. *)
Lemma Power_simplify_value (base exp : Expression) (a b v : Z) :
  eval base = Ok a -> eval exp = Ok b ->
  a <> -1 ->
  py_pow a b = Ok v ->
  division_free base = true -> division_free exp = true ->
  exists res,
    (forall s l r, s l = Ok base -> s r = Ok exp ->
                   Power_simplify s l r = Ok res) /\
    eval res = Ok v /\
    division_free res = true.
Proof.
  intros Ha Hb Hneq Hv Fb Fe.
  destruct (py_pow_Ok _ _ _ Hv) as [Hb0 ->].
  destruct (eq_literal base 1) eqn:B1.
  { exists base. repeat split; trivial.
    - intros s l r Hl Hr. unfold Power_simplify.
      rewrite Hl, Hr. simpl. now rewrite B1.
    - apply eq_literal_true in B1. subst base. injection Ha as <-.
      simpl. f_equal. symmetry. now apply Z.pow_1_l. }
  destruct (eq_literal base (-1)) eqn:Bm.
  { apply eq_literal_true in Bm. subst base. injection Ha as <-.
    contradiction. }
  destruct (eq_literal exp 1) eqn:E1.
  { exists base. repeat split; trivial.
    - intros s l r Hl Hr. unfold Power_simplify.
      rewrite Hl, Hr. simpl. now rewrite B1, Bm, E1.
    - apply eq_literal_true in E1. subst exp. injection Hb as <-.
      now rewrite Ha, Z.pow_1_r. }
  destruct (eq_literal exp 0) eqn:E0.
  { exists ONE. repeat split.
    - intros s l r Hl Hr. unfold Power_simplify.
      rewrite Hl, Hr. simpl. now rewrite B1, Bm, E1, E0.
    - apply eq_literal_true in E0. subst exp. injection Hb as <-.
      reflexivity. }
  exists (Power base exp). repeat split.
  - intros s l r Hl Hr. unfold Power_simplify.
    rewrite Hl, Hr. simpl. now rewrite B1, Bm, E1, E0.
  - simpl. now rewrite Ha, Hb.
  - simpl. now rewrite Fb, Fe.
Qed.

(** A tree without [Negation] nodes simplifies to one without. *)
Lemma simplify_negation_free (fuel : nat) :
  forall t r,
    division_free t = true -> negation_free t = true ->
    simplify fuel t = Ok r -> negation_free r = true.
Proof.
  induction fuel as [| fuel IH]; intros t r Dt Nt H; [discriminate |].
  destruct t; simpl in H, Dt, Nt; try discriminate.
  - now injection H as <-.
  - unfold Absolute_simplify in H.
    apply bind_Ok in H as (value & Hvalue & H).
    pose proof (IH _ _ Dt Nt Hvalue) as Nv.
    pose proof (settled_free _ (simplify_settled _ _ _ Dt Hvalue)) as Dv.
    destruct value; try discriminate; try (now injection H as <-).
    refine (IH _ _ _ _ H); assumption.
  - rewrite Sum_simplify_code in H.
    apply bind_Ok in H as (summands & _ & H). cbv zeta in H.
    destruct (_ =? 0); [discriminate |]. now injection H as <-.
  - apply andb_true_iff in Dt as [Dl Dr]. apply andb_true_iff in Nt as [Nl Nr].
    unfold Product_simplify in H.
    apply bind_Ok in H as (left & Hleft & H).
    apply bind_Ok in H as (right & Hright & H).
    pose proof (IH _ _ Dl Nl Hleft) as Nleft.
    pose proof (IH _ _ Dr Nr Hright) as Nright.
    pose proof (settled_free _ (simplify_settled _ _ _ Dl Hleft)) as Fl.
    pose proof (settled_free _ (simplify_settled _ _ _ Dr Hright)) as Fr.
    destruct (eq_literal left 1); [now injection H as <- |].
    destruct (eq_literal right 1); [now injection H as <- |].
    destruct (eq_literal left 0 || eq_literal right 0);
      [now injection H as <- |].
    destruct left; try discriminate Fl;
      destruct right; try discriminate Fr;
      injection H as <-; simpl in *; now rewrite ?Nleft, ?Nright.
  - apply andb_true_iff in Dt as [Dl Dr]. apply andb_true_iff in Nt as [Nl Nr].
    unfold Power_simplify in H.
    apply bind_Ok in H as (base & Hbase & H).
    apply bind_Ok in H as (exp & Hexp & H).
    pose proof (IH _ _ Dl Nl Hbase) as Nbase.
    pose proof (IH _ _ Dr Nr Hexp) as Nexp.
    destruct (eq_literal base 1); [now injection H as <- |].
    destruct (eq_literal base (-1)).
    { apply bind_Ok in H as (parity & _ & H).
      destruct (negb _); now injection H as <-. }
    destruct (eq_literal exp 1); [now injection H as <- |].
    destruct (eq_literal exp 0); [now injection H as <- |].
    injection H as <-. simpl. now rewrite Nbase, Nexp.
Qed.

(** [Absolute.simplify] on a child that simplifies to a settled tree
    without [Negation] nodes: the call returns, with the absolute value. *)
Lemma Absolute_simplify_value (value : Expression) :
  settled value -> negation_free value = true ->
  forall a, eval value = Ok a ->
  exists m, forall fuel x,
    (m <= fuel)%nat -> simplify fuel x = Ok value -> eval x = Ok a ->
    exists res, simplify (S fuel) (Absolute x) = Ok res /\
                eval res = Ok (Z.abs a).
Proof.
  induction value as [z | y IH | y IH | l IHl r IHr | l IHl r IHr | l IHl r IHr
                     | l IHl r IHr]; intros Sv Nv a Ha; simpl in Nv;
    try discriminate.
  - exists 0%nat. intros fuel x _ Hx _. injection Ha as <-.
    exists (Literal (Z.abs z)). split; [| reflexivity].
    simpl. unfold Absolute_simplify. now rewrite Hx.
  - exists 0%nat. intros fuel x _ Hx _. exists (Absolute y). split.
    + simpl. unfold Absolute_simplify. now rewrite Hx.
    + simpl in Ha. apply bind_Ok in Ha as (c & Hc & [= <-]).
      simpl. rewrite Hc. simpl. now rewrite Z.abs_idemp.
  - exists 0%nat. intros fuel x _ Hx Hev. exists (Absolute x). split.
    + simpl. unfold Absolute_simplify. now rewrite Hx.
    + simpl. now rewrite Hev.
  - destruct (settled_Product _ _ Sv) as [Sl Sr].
    apply andb_true_iff in Nv as [Nl Nr].
    simpl in Ha. apply bind_Ok in Ha as (al & Hal & Ha).
    apply bind_Ok in Ha as (ar & Har & [= <-]).
    destruct (IHl Sl Nl al Hal) as [ml Hml].
    destruct (IHr Sr Nr ar Har) as [mr Hmr].
    destruct (common_fuel l r (settled_fixed _ Sl) (settled_fixed _ Sr))
      as (n & Hnl & Hnr).
    exists (S (S (Nat.max n (Nat.max ml mr)))).
    intros fuel x Hfuel Hx _.
    destruct fuel as [| [| f]]; try lia.
    assert (Hl : simplify f l = Ok l)
      by (apply (simplify_more_fuel n); [exact Hnl | lia]).
    assert (Hr : simplify f r = Ok r)
      by (apply (simplify_more_fuel n); [exact Hnr | lia]).
    destruct (Hml f l ltac:(lia) Hl Hal) as (left & Hleft & Evl).
    destruct (Hmr f r ltac:(lia) Hr Har) as (right & Hright & Evr).
    assert (Fl : division_free left = true).
    { apply settled_free, (simplify_settled (S f) (Absolute l)); trivial.
      exact (settled_free _ Sl). }
    assert (Fr : division_free right = true).
    { apply settled_free, (simplify_settled (S f) (Absolute r)); trivial.
      exact (settled_free _ Sr). }
    destruct (Product_simplify_value left right _ _ Evl Evr Fl Fr)
      as (res & Hres & Hev & _).
    exists res. split.
    + change (Absolute_simplify (simplify (S (S f))) x = Ok res).
      unfold Absolute_simplify. rewrite Hx. simpl bind. cbv iota.
      change (Product_simplify (simplify (S f)) (Absolute l) (Absolute r)
              = Ok res).
      now apply Hres.
    + now rewrite Hev, Z.abs_mul.
  - exists 0%nat. intros fuel x _ Hx Hev. exists (Absolute x). split.
    + simpl. unfold Absolute_simplify. now rewrite Hx.
    + simpl. now rewrite Hev.
  - pose proof (settled_free _ Sv). discriminate.
Qed.

Lemma plain_division_free (t : Expression) : plain t -> division_free t = true.
Proof.
  induction t; simpl; try tauto; intros H.
  - destruct H as [Hl Hr]. now rewrite IHt1, IHt2.
  - destruct H as (Hl & Hr & _). now rewrite IHt1, IHt2.
Qed.

(** On a plain tree [simplify] returns, whatever the budget above some
    bound, and the result has the value of the tree. *)
Lemma simplify_plain (t : Expression) :
  forall v, plain t -> eval t = Ok v ->
  exists r n, (forall fuel, (n <= fuel)%nat -> simplify fuel t = Ok r) /\
              eval r = Ok v /\
              division_free r = true.
Proof.
  induction t as [z | x IH | x IH | l IHl r IHr | l IHl r IHr | l IHl r IHr
                 | l IHl r IHr]; intros v Ht Hv; simpl in Ht; try contradiction.
  - injection Hv as <-. exists (Literal z), 1%nat. repeat split.
    intros [| fuel] Hf; [lia | reflexivity].
  - simpl in Hv. apply bind_Ok in Hv as (a & Ha & [= <-]).
    destruct (IH a Ht Ha) as (value & n & Hs & Hval & Hfree).
    destruct (Negation_simplify_value value a Hval Hfree)
      as (res & Hres & Hev & Hfr).
    exists res, (S n). repeat split; trivial.
    intros [| fuel] Hf; [lia |].
    apply Hres, Hs. lia.
  - simpl in Hv. apply bind_Ok in Hv as (a & Ha & [= <-]).
    destruct Ht as [Ht Hneg].
    destruct (IH a Ht Ha) as (value & n & Hs & Hval & Hfree).
    pose proof (plain_division_free x Ht) as Dx.
    pose proof (Hs n (le_n n)) as Hn.
    pose proof (simplify_settled n x value Dx Hn) as Sv.
    pose proof (simplify_negation_free n x value Dx Hneg Hn) as Nv.
    destruct (Absolute_simplify_value value Sv Nv a Hval) as [m Hm].
    destruct (Hm (Nat.max n m) x ltac:(lia) (Hs (Nat.max n m) ltac:(lia)) Ha)
      as (res & Hres & Hev).
    exists res, (S (Nat.max n m)). repeat split; trivial.
    + intros fuel Hf. now apply (simplify_more_fuel (S (Nat.max n m))).
    + apply settled_free.
      now apply (simplify_settled (S (Nat.max n m)) (Absolute x)).
  - simpl in Hv. apply bind_Ok in Hv as (a & Ha & Hv).
    apply bind_Ok in Hv as (b & Hb & [= <-]).
    destruct Ht as [Htl Htr].
    destruct (IHl a Htl Ha) as (left & nl & Hsl & Hvl & Hfl).
    destruct (IHr b Htr Hb) as (right & nr & Hsr & Hvr & Hfr).
    destruct (Product_simplify_value left right a b Hvl Hvr Hfl Hfr)
      as (res & Hres & Hev & Hfree).
    exists res, (S (Nat.max nl nr)). repeat split; trivial.
    intros [| fuel] Hf; [lia |].
    apply Hres; [apply Hsl | apply Hsr]; lia.
  - simpl in Hv. apply bind_Ok in Hv as (a & Ha & Hv).
    apply bind_Ok in Hv as (b & Hb & Hv).
    destruct Ht as (Htl & Htr & Hbase).
    destruct (IHl a Htl Ha) as (base & nl & Hsl & Hvl & Hfl).
    destruct (IHr b Htr Hb) as (exp & nr & Hsr & Hvr & Hfr).
    assert (Hneq : a <> -1) by (intros ->; now apply Hbase).
    destruct (Power_simplify_value base exp a b v Hvl Hvr Hneq Hv Hfl Hfr)
      as (res & Hres & Hev & Hfree).
    exists res, (S (Nat.max nl nr)). repeat split; trivial.
    intros [| fuel] Hf; [lia |].
    apply Hres; [apply Hsl | apply Hsr]; lia.
Qed.

(** C1, as the code has it.  On a tree built from [Literal], [Negation],
    [Absolute], [Product] and [Power] nodes in which no [Negation] stands
    below an [Absolute] and no [Power] has a base of value [-1], whenever
    [eval] returns an integer, [simplify] returns a tree and [eval] of that
    tree returns the same integer. *)
Theorem simplify_preserves_value (t : Expression) (v : Z) :
  plain t ->
  eval t = Ok v ->
  exists r n,
    (forall fuel, (n <= fuel)%nat -> simplify fuel t = Ok r) /\
    eval r = Ok v.
Proof.
  intros Ht Hv.
  destruct (simplify_plain t v Ht Hv) as (r & n & Hs & Hr & _).
  now exists r, n.
Qed.

Lemma simplify_preserves_value_witness :
  exists r n,
    (forall fuel,
        (n <= fuel)%nat ->
        simplify fuel
          (Negation (Absolute (Product (Power (Literal 3) (Literal 2))
                                       (Literal (-2)))))
        = Ok r) /\
    eval r = Ok (-18).
Proof.
  apply (simplify_preserves_value
           (Negation (Absolute (Product (Power (Literal 3) (Literal 2))
                                        (Literal (-2)))))
           (-18)).
  - simpl. repeat split; discriminate.
  - reflexivity.
Defined.

(** C1 as stated fails, on each kind of tree the theorem leaves out:
    a [Sum] loses its non-literal summands, a [Power] of base [-1] gets the
    wrong sign, [Absolute] of a [Negation] loses the absolute value, and a
    [FloorDivision] is rewritten as if it were exact division. *)
Lemma simplify_changes_value :
  (exists t r v v',
      t = Sum (Power (Literal 2) (Literal 3)) (Literal 1) /\
      eval t = Ok v /\ (forall fuel, simplify (3 + fuel) t = Ok r) /\
      eval r = Ok v' /\ v = 9 /\ v' = 1) /\
  (exists t r v v',
      t = Power (Literal (-1)) (Literal 2) /\
      eval t = Ok v /\ (forall fuel, simplify (2 + fuel) t = Ok r) /\
      eval r = Ok v' /\ v = 1 /\ v' = -1) /\
  (exists t r v v',
      t = Absolute (Negation (Product (Literal 2) (Literal (-3)))) /\
      eval t = Ok v /\ (forall fuel, simplify (4 + fuel) t = Ok r) /\
      eval r = Ok v' /\ v = 6 /\ v' = -6) /\
  (exists t r v v',
      t = Product (FloorDivision (Literal 1) (Literal 2)) (Literal 2) /\
      eval t = Ok v /\ (forall fuel, simplify (5 + fuel) t = Ok r) /\
      eval r = Ok v' /\ v = 0 /\ v' = 1).
Proof.
  split; [| split; [| split]].
  - exists (Sum (Power (Literal 2) (Literal 3)) (Literal 1)), (Literal 1), 9, 1.
    repeat split.
  - exists (Power (Literal (-1)) (Literal 2)), (Literal (-1)), 1, (-1).
    repeat split.
  - exists (Absolute (Negation (Product (Literal 2) (Literal (-3))))),
      (Product (Literal 2) (Literal (-3))), 6, (-6).
    repeat split.
  - exists (Product (FloorDivision (Literal 1) (Literal 2)) (Literal 2)),
      (Literal 1), 0, 1.
    repeat split.
Qed.

(** * Further properties of the engine *)

(** ** Flattening *)





Lemma mapM_app {A B : Type} (f : A -> outcome B) (xs ys : list A) :
  mapM f (xs ++ ys) = (a <- mapM f xs ;; c <- mapM f ys ;; Ok (a ++ c)).
Proof.
  induction xs as [| x xs IH]; simpl.
  - destruct (mapM f ys); reflexivity.
  - destruct (f x); simpl; trivial. rewrite IH.
    destruct (mapM f xs); simpl; trivial.
    destruct (mapM f ys); reflexivity.
Qed.

Lemma fold_add_acc (vs : list Z) (a : Z) :
  fold_left Z.add vs a = a + fold_left Z.add vs 0.
Proof.
  revert a. induction vs as [| v vs IH]; intros a; cbn [fold_left]; [lia |].
  rewrite (IH (a + v)), (IH (0 + v)). lia.
Qed.

Lemma fold_mul_acc (vs : list Z) (a : Z) :
  fold_left Z.mul vs a = a * fold_left Z.mul vs 1.
Proof.
  revert a. induction vs as [| v vs IH]; intros a; cbn [fold_left]; [lia |].
  rewrite (IH (a * v)), (IH (1 * v)). lia.
Qed.

Lemma total_app (xs ys : list Z) : total (xs ++ ys) = total xs + total ys.
Proof. unfold total. rewrite fold_left_app. apply fold_add_acc. Qed.

Lemma product_app (xs ys : list Z) :
  product (xs ++ ys) = product xs * product ys.
Proof. unfold product. rewrite fold_left_app. apply fold_mul_acc. Qed.

Lemma eval_single_total (x : Expression) :
  eval x = (vs <- mapM eval [x] ;; Ok (total vs)).
Proof. simpl mapM. destruct (eval x); reflexivity. Qed.

Lemma eval_single_product (x : Expression) :
  eval x = (vs <- mapM eval [x] ;; Ok (product vs)).
Proof.
  simpl mapM. destruct (eval x); trivial.
  simpl. unfold product. cbn [fold_left]. now rewrite Z.mul_1_l.
Qed.

Lemma eval_unwrap_child_Sum (x : Expression) :
  eval x = (vs <- mapM eval (unwrap_child SumT x) ;; Ok (total vs)).
Proof.
  induction x; cbn [unwrap_child]; try apply eval_single_total.
  cbn [eval]. rewrite mapM_app, IHx1, IHx2.
  destruct (mapM eval (unwrap_child SumT x1)); simpl; trivial.
  destruct (mapM eval (unwrap_child SumT x2)); simpl; trivial.
  now rewrite total_app.
Qed.

Lemma eval_unwrap_child_Product (x : Expression) :
  eval x = (vs <- mapM eval (unwrap_child ProductT x) ;; Ok (product vs)).
Proof.
  induction x; cbn [unwrap_child]; try apply eval_single_product.
  cbn [eval]. rewrite mapM_app, IHx1, IHx2.
  destruct (mapM eval (unwrap_child ProductT x1)); simpl; trivial.
  destruct (mapM eval (unwrap_child ProductT x2)); simpl; trivial.
  now rewrite product_app.
Qed.

(** X2.  Flattening keeps the value and the failures: [eval] of a [Sum] is the
    total of the values of its unwrapped operands, evaluated from left to
    right, and [eval] of a [Product] is their product; the first operand
    that fails decides the failure. *)
Theorem eval_unwrap_parens (l r : Expression) :
  eval (Sum l r)
  = (vs <- mapM eval (unwrap_parens (Sum l r)) ;; Ok (total vs)) /\
  eval (Product l r)
  = (vs <- mapM eval (unwrap_parens (Product l r)) ;; Ok (product vs)).
Proof.
  split.
  - exact (eval_unwrap_child_Sum (Sum l r)).
  - exact (eval_unwrap_child_Product (Product l r)).
Qed.

(** X3.  The string of a [Sum] or of a [Product] does not show how the node was
    associated: grouping three operands to the left or to the right prints
    the same. *)
Theorem str_association (x y z : Expression) :
  str (Sum (Sum x y) z) = str (Sum x (Sum y z)) /\
  str (Product (Product x y) z) = str (Product x (Product y z)).
Proof.
  split.
  - rewrite !str_Sum. cbn [unwrap_parens unwrap_child].
    now rewrite app_assoc.
  - rewrite !str_Product. cbn [unwrap_parens unwrap_child].
    now rewrite app_assoc.
Qed.

(** ** The modular evaluator on every class *)

Lemma py_mod_range (a m r : Z) :
  1 <= m -> py_mod a m = Ok r -> 0 <= r < m.
Proof.
  intros Hm. rewrite py_mod_pos by exact Hm. intros [= <-].
  apply Z.mod_pos_bound. lia.
Qed.

Lemma py_pow3_range (a e m r : Z) :
  1 <= m -> py_pow3 a e m = Ok r -> 0 <= r < m.
Proof.
  intros Hm. unfold py_pow3.
  destruct (Z.eqb_spec m 0); [lia |].
  destruct (Z.eqb_spec (Z.abs m) 1); [intros [= <-]; lia |].
  destruct (e <? 0).
  - destruct (Z.gcd a m =? 1); [| discriminate].
    intros [= <-]. apply Z.mod_pos_bound. lia.
  - intros [= <-]. apply Z.mod_pos_bound. lia.
Qed.

Lemma mod_canonical (t : Expression) (m r : Z) :
  1 <= m -> is_negation t = false -> mod_ t m = Ok r -> 0 <= r < m.
Proof.
  intros Hm Hroot H. destruct t; simpl in H; try discriminate Hroot.
  - now apply (py_mod_range value m).
  - apply bind_Ok in H as (v & _ & H).
    apply bind_Ok in H as (p & Hp & [= <-]).
    apply (py_mod_range _ _ _ Hm) in Hp. lia.
  - apply bind_Ok in H as (a & _ & H). apply bind_Ok in H as (c & _ & H).
    now apply (py_mod_range (a + c) m).
  - apply bind_Ok in H as (a & _ & H). apply bind_Ok in H as (c & _ & H).
    now apply (py_mod_range (a * c) m).
  - apply bind_Ok in H as (a & _ & H). apply bind_Ok in H as (c & _ & H).
    now apply (py_pow3_range a c m).
  - apply bind_Ok in H as (v & _ & H).
    now apply (py_mod_range v m).
Qed.

Lemma mod_bound (t : Expression) (m : Z) :
  1 <= m -> forall r, mod_ t m = Ok r -> - m < r < m.
Proof.
  intros Hm. induction t; intros r H;
    try (assert (0 <= r < m)
           by (eapply mod_canonical; [exact Hm | | exact H]; reflexivity);
         lia).
  simpl in H. apply bind_Ok in H as (q & Hq & [= <-]).
  specialize (IHt q Hq). lia.
Qed.

(** X4.  Under a modulus [m >= 1], [__mod__] of any tree lies strictly between
    [-m] and [m], and in the canonical range from [0] to [m - 1] unless the
    root is a [Negation]. *)
Theorem mod_range (t : Expression) (m r : Z) :
  1 <= m ->
  mod_ t m = Ok r ->
  - m < r < m /\ (is_negation t = false -> 0 <= r < m).
Proof.
  intros Hm H. split.
  - now apply (mod_bound t m).
  - intros Hroot. now apply (mod_canonical t m).
Qed.

Lemma mod_range_witness :
  - 5 < 1 < 5 /\
  (is_negation (Sum (Negation (Literal 13)) (Literal 4)) = false -> 0 <= 1 < 5).
Proof.
  apply (mod_range (Sum (Negation (Literal 13)) (Literal 4)) 5 1).
  - lia.
  - reflexivity.
Defined.

(** X5.  Under a modulus [m >= 1], [Absolute.__mod__] returns the residue of the
    value of its child: the absolute value is taken of a residue that is
    never negative.  [Absolute(Literal(-1)) % 3] is [2], although the value
    of the node is [1]. *)
Theorem mod_Absolute_residue_of_child (x : Expression) (m v : Z) :
  1 <= m ->
  eval x = Ok v ->
  mod_ (Absolute x) m = Ok (v mod m).
Proof.
  intros Hm Hv. simpl. rewrite Hv. simpl.
  rewrite py_mod_pos by exact Hm. simpl. f_equal.
  apply Z.abs_eq. apply Z.mod_pos_bound. lia.
Qed.

Lemma mod_Absolute_residue_of_child_witness :
  mod_ (Absolute (Literal (-1))) 3 = Ok 2 /\
  eval (Absolute (Literal (-1))) = Ok 1.
Proof.
  split.
  - exact (mod_Absolute_residue_of_child (Literal (-1)) 3 (-1)
             ltac:(lia) eq_refl).
  - reflexivity.
Defined.

(** X6.  With the modulus [0], [__mod__] returns on no tree. *)
Theorem mod_zero_never_returns (t : Expression) (r : Z) :
  mod_ t 0 <> Ok r.
Proof.
  revert r. induction t; intros r H; simpl in H.
  - discriminate.
  - apply bind_Ok in H as (q & Hq & _). now apply (IHt q).
  - apply bind_Ok in H as (v & _ & H). discriminate.
  - apply bind_Ok in H as (a & Ha & _). now apply (IHt1 a).
  - apply bind_Ok in H as (a & Ha & _). now apply (IHt1 a).
  - apply bind_Ok in H as (a & Ha & _). now apply (IHt1 a).
  - apply bind_Ok in H as (v & _ & H). discriminate.
Qed.

(** ** What the simplifier never builds *)

(** X7.  [simplify] introduces no [FloorDivision]: on a tree without one, the
    tree it returns has none. *)
Theorem simplify_introduces_no_division (fuel : nat) (t r : Expression) :
  division_free t = true ->
  simplify fuel t = Ok r ->
  division_free r = true.
Proof.
  intros Ht H. exact (settled_free r (simplify_settled fuel t r Ht H)).
Qed.

Lemma simplify_introduces_no_division_witness :
  division_free (Product (Literal 2) (Absolute (Power (Literal 2) (Literal 3))))
  = true.
Proof.
  apply (simplify_introduces_no_division 6
           (Absolute (Product (Negation (Literal 2))
                              (Power (Literal 2) (Literal 3))))).
  - reflexivity.
  - reflexivity.
Defined.

(** X8.  [simplify] introduces no [Negation]: on a tree with neither a
    [Negation] nor a [FloorDivision], the tree it returns has no
    [Negation]. *)
Theorem simplify_introduces_no_negation (fuel : nat) (t r : Expression) :
  division_free t = true ->
  negation_free t = true ->
  simplify fuel t = Ok r ->
  negation_free r = true.
Proof. apply simplify_negation_free. Qed.

Lemma simplify_introduces_no_negation_witness :
  negation_free (Product (Literal 2) (Absolute (Power (Literal 2) (Literal 3))))
  = true.
Proof.
  apply (simplify_introduces_no_negation 6
           (Absolute (Product (Literal (-2))
                              (Power (Literal 2) (Literal 3))))).
  - reflexivity.
  - reflexivity.
  - reflexivity.
Defined.

Section Reduced.

Variable fuel : nat.
Hypothesis IH : forall t r, simplify fuel t = Ok r -> negation_reduced r = true.

Local Ltac results H :=
  repeat match type of H with
    | bind _ _ = Ok _ =>
        let v := fresh "v" in
        let Hv := fresh "Hv" in
        apply bind_Ok in H as (v & Hv & H);
        try (pose proof (IH _ _ Hv))
    | (if ?c then _ else _) = Ok _ => destruct c
    | Ok _ = Ok _ => injection H as <-
    end.

Lemma Negation_simplify_reduced (x r : Expression) :
  Negation_simplify (simplify fuel) x = Ok r -> negation_reduced r = true.
Proof.
  unfold Negation_simplify. intros H. results H.
  destruct v; results H; simpl in *; trivial.
  now apply andb_true_iff in H0 as [_ H0].
Qed.

Lemma Absolute_simplify_reduced (x r : Expression) :
  Absolute_simplify (simplify fuel) x = Ok r -> negation_reduced r = true.
Proof.
  unfold Absolute_simplify. intros H. results H.
  destruct v; results H; simpl in *; eauto.
  now apply andb_true_iff in H0 as [_ H0].
Qed.

Lemma Product_simplify_reduced (l r res : Expression) :
  Product_simplify (simplify fuel) l r = Ok res ->
  negation_reduced res = true.
Proof.
  unfold Product_simplify. intros H. results H; trivial.
  destruct v, v0; results H; eauto.
Qed.

Lemma Power_simplify_reduced (l r res : Expression) :
  Power_simplify (simplify fuel) l r = Ok res ->
  negation_reduced res = true.
Proof.
  unfold Power_simplify. intros H. results H; trivial.
Qed.

Lemma cancellations_reduced (n d res : Expression) :
  cancellations (simplify fuel) n d = Ok res ->
  negation_reduced res = true.
Proof.
  unfold cancellations. intros H.
  destruct (numerator_factors n); [now injection H as <- |].
  destruct (denominator_factors d); [now injection H as <- |].
  destruct (extract_literals _) as [nl no].
  destruct (extract_literals _) as [dl do].
  results H; trivial.
Qed.

Lemma FloorDivision_simplify_reduced (l r res : Expression) :
  FloorDivision_simplify (simplify fuel) l r = Ok res ->
  negation_reduced res = true.
Proof.
  unfold FloorDivision_simplify. intros H. results H; trivial.
  destruct v0, v; eauto using cancellations_reduced.
Qed.

End Reduced.

Lemma simplify_negation_reduced (fuel : nat) :
  forall t r, simplify fuel t = Ok r -> negation_reduced r = true.
Proof.
  induction fuel as [| fuel IH]; intros t r H; [discriminate |].
  destruct t; simpl in H.
  - now injection H as <-.
  - now apply (Negation_simplify_reduced fuel IH t).
  - now apply (Absolute_simplify_reduced fuel IH t).
  - rewrite Sum_simplify_code in H.
    apply bind_Ok in H as (summands & _ & H). cbv zeta in H.
    destruct (_ =? 0); [discriminate |]. now injection H as <-.
  - now apply (Product_simplify_reduced fuel IH t1 t2).
  - now apply (Power_simplify_reduced fuel IH t1 t2).
  - now apply (FloorDivision_simplify_reduced fuel IH t1 t2).
Qed.

(** X9.  On any tree, what [simplify] returns is never the [Negation] of a
    [Literal] and never the [Negation] of a [Negation]. *)
Theorem simplify_never_negates_literal_or_negation
  (fuel : nat) (t r : Expression) :
  simplify fuel t = Ok r ->
  (forall v, r <> Negation (Literal v)) /\
  (forall x, r <> Negation (Negation x)).
Proof.
  intros H. pose proof (simplify_negation_reduced fuel t r H) as Hr.
  split; intros x ->; discriminate.
Qed.

Lemma simplify_never_negates_literal_or_negation_witness :
  (forall v, Literal (-5) <> Negation (Literal v)) /\
  (forall x, Literal (-5) <> Negation (Negation x)).
Proof.
  apply (simplify_never_negates_literal_or_negation 4
           (Negation (Negation (Negation (Literal 5))))).
  reflexivity.
Defined.

(** X10.  Double negation cancels: [Negation(Negation(x))] simplifies to what
    [x] simplifies to, on any tree [x]. *)
Theorem double_negation (fuel : nat) (x r : Expression) :
  simplify fuel x = Ok r ->
  simplify (S (S fuel)) (Negation (Negation x)) = Ok r.
Proof.
  intros H. pose proof (simplify_negation_reduced fuel x r H) as Hr.
  change (Negation_simplify (simplify (S fuel)) (Negation x) = Ok r).
  unfold Negation_simplify at 1.
  change (simplify (S fuel) (Negation x))
    with (Negation_simplify (simplify fuel) x).
  unfold Negation_simplify at 1. rewrite H. simpl bind.
  destruct r; simpl; trivial.
  - now rewrite Z.opp_involutive.
  - simpl in Hr. destruct r; simpl in *; try discriminate; reflexivity.
Qed.

Lemma double_negation_witness :
  simplify 4 (Negation (Negation (Power (Literal 2) (Literal 3))))
  = Ok (Power (Literal 2) (Literal 3)).
Proof.
  exact (double_negation 2 (Power (Literal 2) (Literal 3))
           (Power (Literal 2) (Literal 3)) eq_refl).
Defined.

(** ** Sums *)

(** X11.  Whenever [Sum.simplify] returns, it returns one [Literal], the total of
    the operands that simplified to literals, and that total is not zero:
    the result is never a [Sum]. *)
Theorem Sum_simplify_returns_literal (fuel : nat) (l r res : Expression) :
  simplify (S fuel) (Sum l r) = Ok res ->
  exists summands,
    mapM (simplify fuel) (unwrap_parens (Sum l r)) = Ok summands /\
    res = Literal (sum_literals (filter is_literal summands)) /\
    sum_literals (filter is_literal summands) <> 0.
Proof.
  intros H. change (Sum_simplify (simplify fuel) (Sum l r) = Ok res) in H.
  rewrite Sum_simplify_code in H.
  apply bind_Ok in H as (summands & Hs & H). cbv zeta in H.
  exists summands. split; [exact Hs |].
  destruct (Z.eqb_spec (sum_literals (filter is_literal summands)) 0);
    [discriminate |].
  injection H as <-. now split.
Qed.

Lemma Sum_simplify_returns_literal_witness :
  exists summands,
    mapM (simplify 2)
         (unwrap_parens (Sum (Sum (Literal 4) (Power (Literal 2) (Literal 3)))
                             (Literal 1)))
    = Ok summands /\
    Literal 5 = Literal (sum_literals (filter is_literal summands)) /\
    sum_literals (filter is_literal summands) <> 0.
Proof.
  apply (Sum_simplify_returns_literal 2
           (Sum (Literal 4) (Power (Literal 2) (Literal 3))) (Literal 1)).
  reflexivity.
Defined.

Lemma mapM_simplify_literals (fuel : nat) (xs : list Expression) :
  Forall (fun e => is_literal e = true) xs ->
  mapM (simplify (S fuel)) xs = Ok xs.
Proof.
  induction 1 as [| x xs Hx _ IH]; [reflexivity |].
  destruct x; try discriminate. cbn [mapM]. rewrite IH. reflexivity.
Qed.

Lemma mapM_eval_literals (xs : list Expression) :
  Forall (fun e => is_literal e = true) xs ->
  mapM eval xs = Ok (map literal_value xs).
Proof.
  induction 1 as [| x xs Hx _ IH]; [reflexivity |].
  destruct x; try discriminate. cbn [mapM]. rewrite IH. reflexivity.
Qed.

Lemma filter_all {A : Type} (p : A -> bool) (xs : list A) :
  Forall (fun e => p e = true) xs -> filter p xs = xs.
Proof.
  induction 1 as [| x xs Hx _ IH]; [reflexivity |].
  simpl. now rewrite Hx, IH.
Qed.

(** X12.  A [Sum] whose unwrapped operands are all literals is folded exactly:
    its value is the total of the literals, [simplify] returns that total as
    one [Literal] when it is not zero, and raises [TypeError] when it is. *)
Theorem Sum_of_literals (l r : Expression) :
  Forall (fun e => is_literal e = true) (unwrap_parens (Sum l r)) ->
  let v := total (map literal_value (unwrap_parens (Sum l r))) in
  eval (Sum l r) = Ok v /\
  (v <> 0 -> forall fuel, simplify (2 + fuel) (Sum l r) = Ok (Literal v)) /\
  (v = 0 -> forall fuel, simplify (2 + fuel) (Sum l r) = Raise TypeError).
Proof.
  intros Hall v.
  assert (Hs : forall fuel,
             simplify (2 + fuel) (Sum l r)
             = if v =? 0 then Raise TypeError else Ok (Literal v)).
  { intros fuel.
    change (Sum_simplify (simplify (S fuel)) (Sum l r)
            = if v =? 0 then Raise TypeError else Ok (Literal v)).
    rewrite Sum_simplify_code, (mapM_simplify_literals fuel _ Hall).
    cbn [bind]. rewrite (filter_all _ _ Hall). reflexivity. }
  repeat split.
  - rewrite (eval_unwrap_child_Sum (Sum l r)).
    change (unwrap_child SumT (Sum l r)) with (unwrap_parens (Sum l r)).
    rewrite (mapM_eval_literals _ Hall). reflexivity.
  - intros Hv fuel. rewrite Hs.
    destruct (Z.eqb_spec v 0); [contradiction | reflexivity].
  - intros Hv fuel. rewrite Hs.
    destruct (Z.eqb_spec v 0); [reflexivity | contradiction].
Qed.

Lemma Sum_of_literals_witness :
  eval (Sum (Sum (Literal 4) (Literal (-6))) (Literal 7)) = Ok 5 /\
  (5 <> 0 -> forall fuel,
      simplify (2 + fuel) (Sum (Sum (Literal 4) (Literal (-6))) (Literal 7))
      = Ok (Literal 5)) /\
  (5 = 0 -> forall fuel,
      simplify (2 + fuel) (Sum (Sum (Literal 4) (Literal (-6))) (Literal 7))
      = Raise TypeError).
Proof.
  apply (Sum_of_literals (Sum (Literal 4) (Literal (-6))) (Literal 7)).
  repeat constructor.
Defined.

(** ** Rules that drop an operand *)

(** X13.  Dividing by [Literal(1)] gives the numerator:
    [FloorDivision(x, Literal(1))] simplifies to what [x] simplifies to. *)
Theorem FloorDivision_by_one (fuel : nat) (x r : Expression) :
  simplify fuel x = Ok r ->
  simplify (S fuel) (FloorDivision x (Literal 1)) = Ok r.
Proof.
  intros H.
  assert (Hlit : simplify fuel (Literal 1) = Ok (Literal 1))
    by (destruct fuel; [discriminate | reflexivity]).
  cbn [simplify simplify_method]. unfold FloorDivision_simplify.
  rewrite H, Hlit. reflexivity.
Qed.

Lemma FloorDivision_by_one_witness :
  simplify 3 (FloorDivision (Power (Literal 2) (Literal 3)) (Literal 1))
  = Ok (Power (Literal 2) (Literal 3)).
Proof.
  exact (FloorDivision_by_one 2 (Power (Literal 2) (Literal 3))
           (Power (Literal 2) (Literal 3)) eq_refl).
Defined.

(** X14.  A literal zero factor or numerator and a literal one base absorb the
    other operand: as soon as [x] simplifies at all, [x * 0], [0 * x] and
    [0 // x] simplify to [Literal(0)] and [1 ** x] to [Literal(1)], whatever
    [x] evaluates to and whether it evaluates. *)
Theorem absorbing_operands (fuel : nat) (x r : Expression) :
  simplify fuel x = Ok r ->
  simplify (S fuel) (Product x (Literal 0)) = Ok (Literal 0) /\
  simplify (S fuel) (Product (Literal 0) x) = Ok (Literal 0) /\
  simplify (S fuel) (FloorDivision (Literal 0) x) = Ok (Literal 0) /\
  simplify (S fuel) (Power (Literal 1) x) = Ok (Literal 1).
Proof.
  intros H.
  assert (Hlit : forall z, simplify fuel (Literal z) = Ok (Literal z))
    by (destruct fuel; [discriminate | reflexivity]).
  repeat split; cbn [simplify simplify_method].
  - unfold Product_simplify. rewrite H, Hlit. cbn [bind].
    destruct (eq_literal r 1); [reflexivity |].
    cbn [eq_literal Z.eqb]. now rewrite orb_true_r.
  - unfold Product_simplify. rewrite H, Hlit. cbn [bind].
    cbn [eq_literal Z.eqb]. destruct (eq_literal r 1); reflexivity.
  - unfold FloorDivision_simplify. rewrite H, Hlit. cbn [bind].
    destruct (eq_literal r 1); reflexivity.
  - unfold Power_simplify. rewrite H, Hlit. reflexivity.
Qed.

Lemma absorbing_operands_witness :
  eval (FloorDivision (Literal 0) (Literal 0)) = Raise ZeroDivisionError /\
  simplify 2 (FloorDivision (Literal 0) (Literal 0)) = Ok (Literal 0).
Proof.
  split; [reflexivity |].
  exact (proj1 (proj2 (proj2 (absorbing_operands 1 (Literal 0) (Literal 0)
                                eq_refl)))).
Defined.

(** ** The cancellation loop *)

Lemma product_cons (v : Z) (vs : list Z) : product (v :: vs) = v * product vs.
Proof.
  unfold product. cbn [fold_left]. rewrite fold_mul_acc. lia.
Qed.

Lemma py_floordiv_Ok (a d q : Z) :
  py_floordiv a d = Ok q -> d <> 0 /\ q = a / d.
Proof.
  unfold py_floordiv. destruct (Z.eqb_spec d 0); [discriminate |].
  intros [= <-]. now split.
Qed.

Lemma gcd_exact_l (a c : Z) : Z.gcd a c * (a / Z.gcd a c) = a.
Proof.
  destruct (Z.eq_dec (Z.gcd a c) 0) as [H0 | H0].
  - rewrite H0. apply Z.gcd_eq_0_l in H0. subst a. reflexivity.
  - symmetry. apply Z_div_exact_full_2; [exact H0 |].
    apply Z.mod_divide; [exact H0 | apply Z.gcd_divide_l].
Qed.

Lemma gcd_exact_r (a c : Z) : Z.gcd a c * (c / Z.gcd a c) = c.
Proof. rewrite Z.gcd_comm. apply gcd_exact_l. Qed.

(** X15.  With one literal factor in the denominator the loop keeps the ratio:
    the reduced numerator literals times the old denominator equal the old
    numerator literals times the reduced denominator, and no numerator
    literal is added or lost. *)
Theorem cancel_outer_single_denominator (num_literals : list Z) :
  forall (den : Z) (num_literals' den_literals' : list Z),
    cancel_outer num_literals [den] = Ok (num_literals', den_literals') ->
    exists den',
      den_literals' = [den'] /\
      product num_literals' * den = product num_literals * den' /\
      List.length num_literals' = List.length num_literals.
Proof.
  induction num_literals as [| num rest IH]; intros den nums' dens' H.
  - injection H as <- <-. exists den. repeat split.
  - cbn [cancel_outer cancel_inner] in H.
    apply bind_Ok in H as (r & Hr & H).
    apply bind_Ok in Hr as (q & Hq & Hr).
    apply bind_Ok in Hr as (p & Hp & Hr).
    cbn [bind] in Hr. injection Hr as <-. cbn [fst snd] in H.
    apply py_floordiv_Ok in Hq as [Hd ->].
    apply py_floordiv_Ok in Hp as [_ ->].
    apply bind_Ok in H as ([rs ds] & Hrest & H).
    injection H as <- <-. cbn [fst snd].
    destruct (IH _ _ _ Hrest) as (den' & -> & Hratio & Hlen).
    exists den'. repeat split.
    + rewrite !product_cons.
      pose proof (gcd_exact_l num den) as Hn.
      pose proof (gcd_exact_r num den) as Hc.
      remember (Z.gcd num den) as g eqn:Eg.
      remember (num / g) as a eqn:Ea. remember (den / g) as c eqn:Ec.
      clear Eg Ea Ec Hrest Hd IH.
      subst num den.
      replace (a * product rs * (g * c)) with (a * g * (product rs * c))
        by ring.
      rewrite Hratio. ring.
    + simpl. now rewrite Hlen.
Qed.

Lemma cancel_outer_single_denominator_witness :
  exists den',
    [1] = [den'] /\
    product [3; 5] * 4 = product [6; 10] * den' /\
    List.length [3; 5] = List.length [6; 10].
Proof.
  exact (cancel_outer_single_denominator [6; 10] 4 [3; 5] [1] eq_refl).
Defined.

Lemma cancel_inner_closed (num : Z) (den_literals : list Z) :
  num <> 0 ->
  forall stored,
    cancel_inner num stored den_literals
    = Ok (match den_literals with
          | [] => stored
          | _ :: _ => num / Z.gcd num (last den_literals 0)
          end,
          map (fun den => den / Z.gcd num den) den_literals).
Proof.
  intros Hnum. induction den_literals as [| den rest IH]; intros stored.
  - reflexivity.
  - cbn [cancel_inner]. unfold py_floordiv.
    destruct (Z.eqb_spec (Z.gcd num den) 0) as [H0 | H0].
    { apply Z.gcd_eq_0_l in H0. contradiction. }
    cbn [bind]. rewrite IH. cbn [bind fst snd map].
    destruct rest; reflexivity.
Qed.

(** X16.  With several literal factors in the denominator, a non-zero numerator
    literal is left divided by its greatest common divisor with the last of
    them only, while each denominator literal is divided by its own
    greatest common divisor with the numerator literal. *)
Theorem cancel_inner_keeps_last_division
  (num stored : Z) (den_literals : list Z) :
  num <> 0 ->
  den_literals <> [] ->
  cancel_inner num stored den_literals
  = Ok (num / Z.gcd num (last den_literals 0),
        map (fun den => den / Z.gcd num den) den_literals).
Proof.
  intros Hnum Hdens. rewrite (cancel_inner_closed num den_literals Hnum).
  destruct den_literals; [contradiction | reflexivity].
Qed.

Lemma cancel_inner_keeps_last_division_witness :
  cancel_inner 6 6 [2; 3] = Ok (2, [1; 1]).
Proof.
  exact (cancel_inner_keeps_last_division 6 6 [2; 3]
           ltac:(discriminate) ltac:(discriminate)).
Defined.

Lemma unwrap_child_Product_atom (x : Expression) :
  is_product x = false -> unwrap_child ProductT x = [x].
Proof. destruct x; try reflexivity. discriminate. Qed.

(** A non-zero literal times a tree that simplifies to a non-literal [x']:
    the factor [1] disappears, any other factor stays in front. *)
Lemma Product_literal_factor (s : Expression -> outcome Expression)
  (k : Z) (x x' : Expression) :
  s (Literal k) = Ok (Literal k) ->
  s x = Ok x' ->
  is_literal x' = false -> is_division x' = false ->
  k <> 0 ->
  Product_simplify s (Literal k) x
  = Ok (if k =? 1 then x' else Product (Literal k) x').
Proof.
  intros Hk Hx Hlit Hdiv Hk0. unfold Product_simplify.
  rewrite Hk, Hx. cbn [bind eq_literal].
  destruct (k =? 1); [reflexivity |].
  destruct (Z.eqb_spec k 0); [contradiction |].
  destruct x'; try discriminate; reflexivity.
Qed.

(** X17.  Cancellation: in [FloorDivision(Product(Literal(a), x), Literal(c))] the
    two literals are divided by their greatest common divisor, where [x]
    simplifies to a fixed point [x'] that is neither a [Literal] nor a
    [Product] nor a [FloorDivision] and [a] is neither [0] nor [1], [c] not
    [1].  A numerator literal reduced to [1] is dropped, and so is a
    denominator reduced to [1]. *)
Theorem FloorDivision_cancels_gcd
  (fuel : nat) (x x' : Expression) (a c : Z) :
  simplify fuel x = Ok x' ->
  simplify fuel x' = Ok x' ->
  is_literal x' = false ->
  is_product x' = false ->
  is_division x' = false ->
  a <> 0 -> a <> 1 -> c <> 1 ->
  simplify (S (S fuel)) (FloorDivision (Product (Literal a) x) (Literal c))
  = Ok (let g := Z.gcd a c in
        let top :=
          if a / g =? 1 then x' else Product (Literal (a / g)) x' in
        if c / g =? 1 then top else FloorDivision top (Literal (c / g))).
Proof.
  intros Hx Hfix Hlit Hprod Hdiv Ha0 Ha1 Hc1.
  assert (Hl : forall z, simplify fuel (Literal z) = Ok (Literal z))
    by (destruct fuel; [discriminate | reflexivity]).
  assert (Hg : Z.gcd a c <> 0)
    by (intros H0; apply Z.gcd_eq_0_l in H0; contradiction).
  assert (Hq : a / Z.gcd a c <> 0).
  { intros H0. pose proof (gcd_exact_l a c) as E. rewrite H0 in E. lia. }
  assert (Hnum : simplify (S fuel) (Product (Literal a) x)
                 = Ok (Product (Literal a) x')).
  { cbn [simplify simplify_method].
    rewrite (Product_literal_factor _ a x x' (Hl a) Hx Hlit Hdiv Ha0).
    destruct (Z.eqb_spec a 1); [contradiction | reflexivity]. }
  assert (Htop : simplify (S fuel) (Product (Literal (a / Z.gcd a c)) x')
                 = Ok (if a / Z.gcd a c =? 1 then x'
                       else Product (Literal (a / Z.gcd a c)) x')).
  { cbn [simplify simplify_method].
    apply (Product_literal_factor _ _ x' x' (Hl _) Hfix Hlit Hdiv Hq). }
  cbn [simplify]. cbn [simplify_method].
  change (simplify_method (simplify fuel)) with (simplify (S fuel)).
  unfold FloorDivision_simplify. rewrite Hnum.
  change (simplify (S fuel) (Literal c)) with (Ok (Literal c)).
  cbn [bind eq_literal].
  destruct (Z.eqb_spec c 1); [contradiction |].
  unfold cancellations.
  cbn [numerator_factors denominator_factors unwrap_parens unwrap_child].
  rewrite (unwrap_child_Product_atom x' Hprod).
  cbn [app extract_literals split filter is_literal negb map literal_value].
  rewrite Hlit.
  cbn [negb map literal_value cancel_outer cancel_inner].
  unfold py_floordiv.
  destruct (Z.eqb_spec (Z.gcd a c) 0); [contradiction |].
  cbn [bind fst snd map app reduce fold_left].
  rewrite Htop. cbn [bind].
  change (simplify (S fuel) (Literal (c / Z.gcd a c)))
    with (Ok (Literal (c / Z.gcd a c))).
  cbn [bind eq_literal]. cbv zeta.
  destruct (c / Z.gcd a c =? 1); reflexivity.
Qed.

(** [FloorDivision(Product(Literal(6), Power(2, 3)), Literal(4))] becomes
    [FloorDivision(Product(Literal(3), Power(2, 3)), Literal(2))]. *)
Lemma FloorDivision_cancels_gcd_witness :
  simplify 4 (FloorDivision (Product (Literal 6) (Power (Literal 2) (Literal 3)))
                            (Literal 4))
  = Ok (FloorDivision (Product (Literal 3) (Power (Literal 2) (Literal 3)))
                      (Literal 2)).
Proof.
  exact (FloorDivision_cancels_gcd 2
           (Power (Literal 2) (Literal 3)) (Power (Literal 2) (Literal 3)) 6 4
           eq_refl eq_refl eq_refl eq_refl eq_refl
           ltac:(discriminate) ltac:(discriminate) ltac:(discriminate)).
Defined.

(** ** [b], operators and [__int__] *)

Lemma divide_le_abs (d v : Z) : v <> 0 -> (d | v) -> d <= Z.abs v.
Proof.
  intros Hv Hd. apply Z.divide_pos_le; [lia |]. now apply Z.divide_abs_r.
Qed.

Lemma b_loop_literal (v : Z) :
  v <> 0 ->
  forall (n : nat) (k : Z),
    0 <= k ->
    (k = 0 \/ (2 ^ (k - 1) | v)) ->
    Z.abs v < 2 ^ (k + Z.of_nat n) ->
    exists j,
      k <= j /\ (j = 0 \/ (2 ^ (j - 1) | v)) /\ ~ (2 ^ j | v) /\
      forall fuel, (S n <= fuel)%nat ->
                   b_loop fuel (Literal v) (2 ^ k) = Ok (2 ^ j).
Proof.
  intros Hv. induction n as [| n IH]; intros k Hk Hinv Hbound.
  - exists k. rewrite Z.add_0_r in Hbound.
    assert (Hnd : ~ (2 ^ k | v)).
    { intros Hd. pose proof (divide_le_abs _ _ Hv Hd). lia. }
    repeat split; trivial; [lia |].
    intros [| fuel] Hf; [lia |]. cbn [b_loop mod_]. unfold py_mod.
    assert (Hpos : 0 < 2 ^ k) by (apply Z.pow_pos_nonneg; lia).
    destruct (Z.eqb_spec (2 ^ k) 0); [lia |]. cbn [bind].
    destruct (Z.eqb_spec (v mod 2 ^ k) 0) as [H0 | H0]; [| reflexivity].
    exfalso. apply Hnd. apply Z.mod_divide; [lia | exact H0].
  - assert (Hpos : 0 < 2 ^ k) by (apply Z.pow_pos_nonneg; lia).
    destruct (Z.eq_dec (v mod 2 ^ k) 0) as [H0 | H0].
    + assert (Hd : (2 ^ k | v)) by (apply Z.mod_divide; [lia | exact H0]).
      destruct (IH (k + 1)) as (j & Hj & Hjinv & Hjnd & Hrun).
      * lia.
      * right. now replace (k + 1 - 1) with k by lia.
      * replace (k + 1 + Z.of_nat n) with (k + Z.of_nat (S n)) by lia.
        exact Hbound.
      * exists j. repeat split; trivial; [lia |].
        intros [| fuel] Hf; [lia |]. cbn [b_loop mod_]. unfold py_mod.
        destruct (Z.eqb_spec (2 ^ k) 0); [lia |]. cbn [bind].
        rewrite H0. cbn [Z.eqb].
        replace (2 ^ k * 2) with (2 ^ (k + 1))
          by (rewrite Z.pow_add_r by lia; lia).
        apply Hrun. lia.
    + exists k. repeat split; trivial; [lia | |].
      * intros Hd. apply H0. apply Z.mod_divide; [lia | exact Hd].
      * intros [| fuel] Hf; [lia |]. cbn [b_loop mod_]. unfold py_mod.
        destruct (Z.eqb_spec (2 ^ k) 0); [lia |]. cbn [bind].
        destruct (Z.eqb_spec (v mod 2 ^ k) 0); [contradiction | reflexivity].
Qed.

(** X18.  On a literal of non-zero value [v], [b] returns the least power of two
    that does not divide [v], after a number of rounds bounded by the size
    of [v]. *)
Theorem b_least_power_of_two (v : Z) :
  v <> 0 ->
  exists j,
    1 <= j /\ (2 ^ (j - 1) | v) /\ ~ (2 ^ j | v) /\
    forall fuel,
      (Z.to_nat (Z.log2 (Z.abs v)) + 2 <= fuel)%nat ->
      b fuel (Literal v) = Ok (2 ^ j).
Proof.
  intros Hv.
  destruct (b_loop_literal v Hv (S (Z.to_nat (Z.log2 (Z.abs v)))) 0)
    as (j & Hj & Hinv & Hnd & Hrun).
  - lia.
  - now left.
  - destruct (Z.log2_spec (Z.abs v)) as [_ Hlt]; [lia |].
    rewrite Z.add_0_l, Nat2Z.inj_succ, Z2Nat.id by apply Z.log2_nonneg.
    exact Hlt.
  - assert (Hj1 : j <> 0).
    { intros ->. apply Hnd. exists v. simpl. lia. }
    exists j. repeat split; trivial; [lia | |].
    + destruct Hinv; [contradiction | assumption].
    + intros fuel Hf. apply Hrun. lia.
Qed.

Lemma b_least_power_of_two_witness :
  exists j,
    1 <= j /\ (2 ^ (j - 1) | 12) /\ ~ (2 ^ j | 12) /\
    forall fuel,
      (Z.to_nat (Z.log2 (Z.abs 12)) + 2 <= fuel)%nat ->
      b fuel (Literal 12) = Ok (2 ^ j).
Proof. exact (b_least_power_of_two 12 ltac:(discriminate)). Defined.

Lemma b_loop_zero (fuel : nat) :
  forall divisor, divisor <> 0 -> b_loop fuel (Literal 0) divisor = OutOfFuel.
Proof.
  induction fuel as [| fuel IH]; intros divisor Hd; [reflexivity |].
  cbn [b_loop mod_]. unfold py_mod.
  destruct (Z.eqb_spec divisor 0); [contradiction |]. cbn [bind].
  rewrite Z.mod_0_l by exact Hd. cbn [Z.eqb]. apply IH. lia.
Qed.

(** X19.  On a literal of value zero the loop of [b] never ends: every power of
    two divides zero, so no budget is enough. *)
Theorem b_zero_never_returns (fuel : nat) :
  b fuel (Literal 0) = OutOfFuel.
Proof. apply b_loop_zero. discriminate. Qed.

(** X20.  Subtraction is a [Sum] with a [Negation]: where both operands
    evaluate, [x - y] evaluates to the difference and the reflected
    [y - x] to the opposite difference. *)
Theorem sub_evaluates_to_difference
  (self : Expression) (other : operand) (a c : Z) :
  eval self = Ok a ->
  eval (wrap other) = Ok c ->
  eval (sub self other) = Ok (a - c) /\
  eval (rsub self other) = Ok (c - a).
Proof.
  intros Ha Hc. unfold sub, rsub. simpl. rewrite Ha, Hc. simpl.
  split; f_equal; lia.
Qed.

Lemma sub_evaluates_to_difference_witness :
  eval (sub (Literal 7) (OfInt 10)) = Ok (-3) /\
  eval (rsub (Literal 7) (OfInt 10)) = Ok 3.
Proof.
  exact (sub_evaluates_to_difference (Literal 7) (OfInt 10) 7 10
           eq_refl eq_refl).
Defined.

(** X21.  [int(t)] agrees with [t.eval()] on the trees on which simplification
    keeps the value: on a plain tree that evaluates to [v], [__int__]
    returns [v]. *)
Theorem int_of_plain (t : Expression) (v : Z) :
  plain t ->
  eval t = Ok v ->
  exists n, forall fuel, (n <= fuel)%nat -> int fuel t = Ok v.
Proof.
  intros Ht Hv.
  destruct (simplify_plain t v Ht Hv) as (r & n & Hs & Hr & _).
  exists n. intros fuel Hf. unfold int. now rewrite (Hs fuel Hf).
Qed.

Lemma int_of_plain_witness :
  exists n, forall fuel,
      (n <= fuel)%nat ->
      int fuel (Product (Absolute (Literal (-4))) (Power (Literal 3) (Literal 2)))
      = Ok 36.
Proof.
  apply (int_of_plain
           (Product (Absolute (Literal (-4))) (Power (Literal 3) (Literal 2)))
           36).
  - simpl. repeat split; discriminate.
  - reflexivity.
Defined.
